(** * ABodyBuilder2: the ensemble aggregate and its output stage

    A shallow embedding of [ImmuneBuilder/ABodyBuilder2.py]: the class
    [Antibody] (construction, [save_single_unrefined], [save_all], [save])
    and the class [ABodyBuilder2] (construction, [predict]).

    Tensors are nested lists, Python exceptions are an error result, and the
    calls to the collaborators the module imports ([to_pdb], [refine],
    [add_errors_as_bfactors], [np.save], [number_sequences], ...) are recorded
    as events in a log, in the order the code makes them. *)

From Stdlib Require Import QArith.QArith_base QArith.Qreduction.
From Stdlib Require Import Ascii String.
From stdpp Require Import base list sorting strings pretty.

Local Close Scope Q_scope.
Local Open Scope nat_scope.
Local Open Scope string_scope.
Local Open Scope list_scope.

(** ** Scalars

    [torch.set_default_tensor_type(torch.DoubleTensor)]: the entries of every
    tensor are doubles.  The model keeps the carrier and the operations torch
    applies to it abstract; nothing is assumed about their arithmetic. *)

Class Scalar (F : Type) := {
  fzero : F;
  fadd : F -> F -> F;
  fsub : F -> F -> F;
  fmul : F -> F -> F;
  fdivn : F -> nat -> F;        (* division by an element count, as [mean] does *)
  fsqrt : F -> F;
  fleb : F -> F -> bool         (* the comparison [argsort] orders by *)
}.

(** ** Python results *)

Inductive exn :=
| IndexError
| ValueError
| KeyError (key : string)
| RuntimeError
| UnboundLocalError.

Inductive res (A : Type) :=
| Ok (a : A)
| Raise (e : exn).
Arguments Ok {A} a.
Arguments Raise {A} e.

Definition res_bind {A B} (r : res A) (k : A -> res B) : res B :=
  match r with
  | Ok a => k a
  | Raise e => Raise e
  end.

Definition of_option {A} (o : option A) (e : exn) : res A :=
  match o with
  | Some a => Ok a
  | None => Raise e
  end.

Fixpoint res_mapM {A B} (f : A -> res B) (l : list A) : res (list B) :=
  match l with
  | [] => Ok []
  | x :: l' =>
      res_bind (f x) (fun y => res_bind (res_mapM f l') (fun ys => Ok (y :: ys)))
  end.

(** ** Tensors *)

Section Tensors.
Context {F : Type} `{Scalar F}.

(** A point: the last axis, of size 3. *)
Record vec3 := V3 { vx : F; vy : F; vz : F }.

(** A 3x3 matrix by rows. *)
Record mat3 := M3 { row0 : vec3; row1 : vec3; row2 : vec3 }.

Definition vsub (p q : vec3) : vec3 :=
  V3 (fsub (vx p) (vx q)) (fsub (vy p) (vy q)) (fsub (vz p) (vz q)).

Definition vadd (p q : vec3) : vec3 :=
  V3 (fadd (vx p) (vx q)) (fadd (vy p) (vy q)) (fadd (vz p) (vz q)).

Definition vdivn (n : nat) (p : vec3) : vec3 :=
  V3 (fdivn (vx p) n) (fdivn (vy p) n) (fdivn (vz p) n).

(** [p @ R] for a row vector [p]. *)
Definition vecmat (p : vec3) (R : mat3) : vec3 :=
  V3 (fadd (fadd (fmul (vx p) (vx (row0 R))) (fmul (vy p) (vx (row1 R))))
           (fmul (vz p) (vx (row2 R))))
     (fadd (fadd (fmul (vx p) (vy (row0 R))) (fmul (vy p) (vy (row1 R))))
           (fmul (vz p) (vy (row2 R))))
     (fadd (fadd (fmul (vx p) (vz (row0 R))) (fmul (vy p) (vz (row1 R))))
           (fmul (vz p) (vz (row2 R)))).

(** [.square().sum(-1)] of one point. *)
Definition sqnorm (p : vec3) : F :=
  fadd (fadd (fmul (vx p) (vx p)) (fmul (vy p) (vy p))) (fmul (vz p) (vz p)).

(** [(p - t) @ R]: the rigid transform of one point. *)
Definition transform (R : mat3) (t : vec3) (p : vec3) : vec3 :=
  vecmat (vsub p t) R.

Definition fsum (l : list F) : F := foldl fadd fzero l.

(** [.mean(-1)] of one row. *)
Definition fmean (l : list F) : F := fdivn (fsum l) (length l).

(** [.mean(0)] of a members x residues x 3 tensor: the sum over the members,
    residue by residue, divided by the number of members. *)
Definition vsum0 (l : list (list vec3)) : list vec3 :=
  match l with
  | [] => []
  | x :: xs => foldl (zip_with vadd) x xs
  end.

Definition vmean0 (l : list (list vec3)) : list vec3 :=
  vdivn (length l) <$> vsum0 l.

(** [.mean(0)] of a members x residues tensor. *)
Definition fsum0 (l : list (list F)) : list F :=
  match l with
  | [] => []
  | x :: xs => foldl (zip_with fadd) x xs
  end.

Definition fmean0 (l : list (list F)) : list F :=
  (fun s => fdivn s (length l)) <$> fsum0 l.

(** [x[:,0]]: atom 0 of every residue; indexing an empty atom axis raises. *)
Definition trace_of (x : list (list vec3)) : res (list vec3) :=
  res_mapM (fun residue => of_option (residue !! 0) IndexError) x.

(** [torch.stack]: refuses an empty list and tensors of different sizes. *)
Definition stack (l : list (list vec3)) : res (list (list vec3)) :=
  match l with
  | [] => Raise RuntimeError
  | x :: xs =>
      if forallb (fun y => Nat.eqb (length y) (length x)) xs
      then Ok l else Raise RuntimeError
  end.

(** [(traces - t) @ R], member by member. *)
Definition align (traces : list (list vec3)) (R : list mat3) (t : list vec3)
  : list (list vec3) :=
  zip_with (fun tr Rt => transform Rt.1 Rt.2 <$> tr) traces (zip R t).

(** [(aligned - aligned.mean(0)).square().sum(-1)], members x residues. *)
Definition deviations (aligned : list (list vec3)) : list (list F) :=
  (fun tr => zip_with (fun p c => sqnorm (vsub p c)) tr (vmean0 aligned))
    <$> aligned.

End Tensors.

Arguments vec3 F : clear implicits.
Arguments mat3 F : clear implicits.

(** One member's coordinates, residues x atoms x 3. *)
Abbreviation coords F := (list (list (vec3 F))).

(** ** Paths and dictionaries *)

(** [s.endswith("/")]. *)
Fixpoint ends_with_sep (s : string) : bool :=
  match s with
  | EmptyString => false
  | String c EmptyString => Ascii.eqb c "/"%char
  | String _ s' => ends_with_sep s'
  end.

(** [os.path.join(a, b)] (posixpath). *)
Definition path_join (a b : string) : string :=
  if String.prefix "/" b then b
  else if bool_decide (a = "") || ends_with_sep a then a +:+ b
  else a +:+ "/" +:+ b.

(** [f"rank{k}_unrefined.pdb"]. *)
Definition rank_filename (k : nat) : string :=
  "rank" +:+ pretty k +:+ "_unrefined.pdb".

(** A Python [dict] with string keys, in insertion order. *)
Abbreviation dict V := (list (string * V)).

Fixpoint dict_get {V} (d : dict V) (key : string) : res V :=
  match d with
  | [] => Raise (KeyError key)
  | (k, v) :: d' => if bool_decide (k = key) then Ok v else dict_get d' key
  end.

(** [l.index(x)]: the position of the first occurrence. *)
Fixpoint list_index (x : nat) (l : list nat) : option nat :=
  match l with
  | [] => None
  | y :: l' => if bool_decide (y = x) then Some 0 else S <$> list_index x l'
  end.

(** ["".join(l)]. *)
Definition str_join (l : list string) : string := foldr String.append "" l.

Definition newline : string := String (Ascii.ascii_of_nat 10) "".

(** The module constant [header]. *)
Definition header : string :=
  "REMARK  ANTIBODY STRUCTURE MODELLED USING ABODYBUILDER2                         "
  +:+ newline.

(** [numbered_sequences]: chain -> [(label, residue)] list. *)
Abbreviation numbered Label := (dict (list (Label * string))).

(** ** The collaborators and the log of their calls *)

Section Model.
Context {F : Type} `{Scalar F}.
(** [Pdb]: the text [to_pdb] returns; [Enc]: the encoding [get_encoding]
    returns; [Emb]: the per-residue encoding a model returns beside its
    coordinates; [Label]: a position label of the numbering. *)
Context {Pdb Enc Emb Label : Type}.

Inductive event :=
| EvWrite (path : string) (text : Pdb)        (* [open(path, "w+")], [write] *)
| EvMakedirs (dir : string)                   (* [os.makedirs(dir, exist_ok=True)] *)
| EvNpSave (path : string) (arr : list F)     (* [np.save] *)
| EvRefine (input output : string)            (* [refine(input, output)] *)
| EvPrint (msg : string)
| EvAddErrors (path : string) (errors : list F) (new_txt : list string)
                                              (* [add_errors_as_bfactors] *)
| EvNumber (sequence_dict : dict string)      (* [number_sequences] *)
| EvEncoding (sequence_dict : dict string)    (* [get_encoding] *)
| EvModel (model_file : string) (encoding : Enc) (full_seq : string).

(** What the imported functions compute.  [refine] reports success or
    failure; its outcome may depend on everything that happened before the
    call, so it is a function of the log so far.  Every call is taken to
    return: a collaborator that raises is outside the model. *)
Class External := {
  find_alignment_transform :
    list (list (vec3 F)) -> list (mat3 F) * list (vec3 F);
  argsort : list F -> list nat;
  to_pdb : numbered Label -> coords F -> Pdb;
  refine_outcome : list event -> string -> string -> bool;
  number_sequences : dict string -> numbered Label;
  get_encoding : dict string -> Enc
}.

Context {E : External}.

(** ** class Antibody *)

Record Antibody := {
  numbered_sequences : numbered Label;
  atoms : list (coords F);
  encodings : list Emb;
  self_R : list (mat3 F);
  self_t : list (vec3 F);
  aligned_traces : list (list (vec3 F));
  error_estimates : list (list F);
  ranking : list nat
}.

(** [Antibody.__init__]. *)
Definition Antibody_init (ns : numbered Label) (predictions : list (coords F * Emb))
  : res Antibody :=
  let atoms := fst <$> predictions in
  let encodings := snd <$> predictions in
  res_bind (res_mapM trace_of atoms) (fun rows =>
  res_bind (stack rows) (fun traces =>
  let Rt := find_alignment_transform traces in
  let aligned := align traces Rt.1 Rt.2 in
  let errors := deviations aligned in
  Ok {| numbered_sequences := ns;
        atoms := atoms;
        encodings := encodings;
        self_R := Rt.1;
        self_t := Rt.2;
        aligned_traces := aligned;
        error_estimates := errors;
        ranking := argsort (fmean <$> errors) |})).

(** [self.error_estimates.mean(0).sqrt()]: the per-residue confidence. *)
Definition confidence (self : Antibody) : list F :=
  fsqrt <$> fmean0 (error_estimates self).

(** ** Methods: a state and error monad over the object and the log *)

Record world (O : Type) := World { obj : O; log : list event }.
Arguments World {O} obj log.
Arguments obj {O} w.
Arguments log {O} w.

Definition Py (O A : Type) := world O -> res A * world O.

Definition ret {O A} (a : A) : Py O A := fun w => (Ok a, w).

Definition bind {O A B} (m : Py O A) (k : A -> Py O B) : Py O B :=
  fun w =>
    match m w with
    | (Ok a, w') => k a w'
    | (Raise e, w') => (Raise e, w')
    end.

Definition raise {O A} (e : exn) : Py O A := fun w => (Raise e, w).

Definition lift {O A} (r : res A) : Py O A := fun w => (r, w).

Definition get_self {O} : Py O O := fun w => (Ok (obj w), w).

Definition emit {O} (ev : event) : Py O unit :=
  fun w => (Ok tt, World (obj w) (log w ++ [ev])).

Notation "x <- m ;; k" := (bind m (fun x => k))
  (at level 100, m at next level, right associativity).
Notation "m ;;; k" := (bind m (fun _ => k))
  (at level 100, right associativity).

(** A call of [refine]: logged, answered by the collaborator. *)
Definition refine {O} (input output : string) : Py O bool :=
  fun w =>
    (Ok (refine_outcome (log w) input output),
     World (obj w) (log w ++ [EvRefine input output])).

(** [(self.atoms[index] - self.t[index]) @ self.R[index]], serialised. *)
Definition unrefined (self : Antibody) (index : nat) : res Pdb :=
  res_bind (of_option (atoms self !! index) IndexError) (fun a =>
  res_bind (of_option (self_t self !! index) IndexError) (fun ti =>
  res_bind (of_option (self_R self !! index) IndexError) (fun Ri =>
  Ok (to_pdb (numbered_sequences self) (fmap (transform Ri ti) <$> a))))).

Definition save_single_unrefined (filename : string) (index : nat)
  : Py Antibody unit :=
  self <- get_self ;;
  text <- lift (unrefined self index) ;;
  emit (EvWrite filename text).

(** [self.ranking.index(i)]. *)
Definition ranking_index (i : nat) : Py Antibody nat :=
  self <- get_self ;;
  lift (of_option (list_index i (ranking self)) ValueError).

(** The loop of [save_all] over [range(len(self.atoms))]. *)
Fixpoint save_all_loop (dirname : string) (idxs : list nat) : Py Antibody unit :=
  match idxs with
  | [] => ret tt
  | i :: rest =>
      k <- ranking_index i ;;
      save_single_unrefined (path_join dirname (rank_filename k)) i ;;;
      save_all_loop dirname rest
  end.

Definition save_all (dirname filename : option string) : Py Antibody unit :=
  let dirname := default "ABodyBuilder2_output" dirname in
  let filename := default "final_model.pdb" filename in
  emit (EvMakedirs dirname) ;;;
  self <- get_self ;;
  save_all_loop dirname (seq 0 (length (atoms self))) ;;;
  self <- get_self ;;
  emit (EvNpSave (path_join dirname "error_estimates")
          (fmean0 (error_estimates self))) ;;;
  let final_filename := path_join dirname filename in
  _ <- refine (path_join dirname "rank0_unrefined.pdb") final_filename ;;
  self <- get_self ;;
  emit (EvAddErrors final_filename (confidence self) [header]).

(** The loop of [save]; [success] is [None] while the variable is unbound.
    Returning without the recursive call is the [break]. *)
Fixpoint save_loop (filename : string) (idxs : list nat) (success : option bool)
  : Py Antibody (option bool) :=
  match idxs with
  | [] => ret success
  | i :: rest =>
      k <- ranking_index i ;;
      save_single_unrefined filename k ;;;
      success <- refine filename filename ;;
      if success : bool then ret (Some success)
      else
        k <- ranking_index i ;;
        save_single_unrefined filename k ;;;
        success <- refine filename filename ;;
        if success : bool then ret (Some success)
        else save_loop filename rest (Some success)
  end.

Definition failed_message (filename : string) : string :=
  "FAILED TO REFINE " +:+ filename +:+ "." +:+ newline +:+ "Saving anyways.".

Definition save (filename : option string) : Py Antibody unit :=
  let filename := default "ABodyBuilder2_output.pdb" filename in
  self <- get_self ;;
  success <- save_loop filename (seq 0 (length (atoms self))) None ;;
  match success with
  | None => raise UnboundLocalError
  | Some success =>
      (if success : bool then ret tt
       else emit (EvPrint (failed_message filename))) ;;;
      self <- get_self ;;
      emit (EvAddErrors filename (confidence self) [header])
  end.

(** The methods a caller can run on a constructed object. *)
Inductive operation :=
| OpSave (filename : option string)
| OpSaveAll (dirname filename : option string)
| OpSaveSingleUnrefined (filename : string) (index : nat).

Definition run_operation (op : operation) : Py Antibody unit :=
  match op with
  | OpSave filename => save filename
  | OpSaveAll dirname filename => save_all dirname filename
  | OpSaveSingleUnrefined filename index => save_single_unrefined filename index
  end.

(** A sequence of method calls; an exception ends a call, not the sequence. *)
Fixpoint run_operations (ops : list operation) (w : world Antibody)
  : world Antibody :=
  match ops with
  | [] => w
  | op :: ops' => run_operations ops' (run_operation op w).2
  end.

(** ** class ABodyBuilder2 *)

(** The loaded models, in the insertion order of [self.models]; a model maps
    the encoding and the full sequence to coordinates and an encoding. *)
Record ABodyBuilder2 := {
  device : string;
  models : dict (Enc -> string -> coords F * Emb)
}.

Definition call_model (model_file : string)
  (model : Enc -> string -> coords F * Emb) (encoding : Enc) (full_seq : string)
  : Py ABodyBuilder2 (coords F * Emb) :=
  emit (EvModel model_file encoding full_seq) ;;;
  ret (model encoding full_seq).

Fixpoint predict_loop (ms : dict (Enc -> string -> coords F * Emb))
  (encoding : Enc) (full_seq : string) (outputs : list (coords F * Emb))
  : Py ABodyBuilder2 (list (coords F * Emb)) :=
  match ms with
  | [] => ret outputs
  | (model_file, model) :: rest =>
      pred <- call_model model_file model encoding full_seq ;;
      predict_loop rest encoding full_seq (outputs ++ [pred])
  end.

Definition predict (sequence_dict : dict string) : Py ABodyBuilder2 Antibody :=
  emit (EvNumber sequence_dict) ;;;
  let numbered_sequences := number_sequences sequence_dict in
  let sequence_dict :=
    (fun entry => (entry.1, str_join (snd <$> entry.2))) <$> numbered_sequences in
  emit (EvEncoding sequence_dict) ;;;
  let encoding := get_encoding sequence_dict in
  h <- lift (dict_get sequence_dict "H") ;;
  l <- lift (dict_get sequence_dict "L") ;;
  let full_seq := h +:+ l in
  self <- get_self ;;
  outputs <- predict_loop (models self) encoding full_seq [] ;;
  lift (Antibody_init numbered_sequences outputs).

End Model.

Arguments event F Pdb Enc : clear implicits.
Arguments External F Pdb Enc Label : clear implicits.
Arguments Antibody F Emb Label : clear implicits.
Arguments ABodyBuilder2 F Enc Emb : clear implicits.
Arguments World {F Pdb Enc O} obj log.
Arguments obj {F Pdb Enc O} w.
Arguments log {F Pdb Enc O} w.

(** ** Reading a log *)

Section Logs.
Context {F Pdb Enc : Type}.

(** One refinement attempt of [save]: the unrefined structure is written to
    the target, and [refine] is run on it in place. *)
Definition attempt (filename : string) (text : Pdb) : list (event F Pdb Enc) :=
  [EvWrite filename text; EvRefine filename filename].

(** One iteration of the loop of [save]: an attempt, and a second one on the
    same structure when [twice]. *)
Definition round_events (filename : string) (r : Pdb * bool)
  : list (event F Pdb Enc) :=
  attempt filename r.1 ++ (if r.2 then attempt filename r.1 else []).

(** The number of calls of [refine] in a log. *)
Fixpoint refine_calls (l : list (event F Pdb Enc)) : nat :=
  match l with
  | [] => 0
  | EvRefine _ _ :: l' => S (refine_calls l')
  | _ :: l' => refine_calls l'
  end.

(** The structures written to files, in order. *)
Fixpoint written (l : list (event F Pdb Enc)) : list (string * Pdb) :=
  match l with
  | [] => []
  | EvWrite path text :: l' => (path, text) :: written l'
  | _ :: l' => written l'
  end.

End Logs.

(** ** The contracts of the collaborators *)

Section Contracts.
Context {F : Type} `{Scalar F}.

(** [find_alignment_transform] returns one rotation and one translation for
    each trace it is given. *)
Definition alignment_contract
  (fat : list (list (vec3 F)) -> list (mat3 F) * list (vec3 F)) : Prop :=
  forall traces,
    length (fat traces).1 = length traces /\
    length (fat traces).2 = length traces.

(** [torch.argsort] with its defaults ([descending=False], [stable=False]):
    the indices of the input, each once, the values they select ascending. *)
Definition argsort_contract (sorter : list F -> list nat) : Prop :=
  forall xs : list F,
    sorter xs ≡ₚ seq 0 (length xs) /\
    forall (p q i j : nat) (x y : F),
      p <= q ->
      sorter xs !! p = Some i -> sorter xs !! q = Some j ->
      xs !! i = Some x -> xs !! j = Some y ->
      fleb x y = true.

(** A sorter that meets [argsort_contract] when [fleb] is a total preorder,
    for the examples: it orders the (index, value) pairs by value, and by
    [ties] on the indices among equal values. *)
Definition pair_leb (ties : nat -> nat -> bool) (a b : nat * F) : bool :=
  fleb a.2 b.2 && (negb (fleb b.2 a.2) || ties a.1 b.1).

Definition pair_le (ties : nat -> nat -> bool) (a b : nat * F) : Prop :=
  pair_leb ties a b = true.

#[global] Instance pair_le_dec ties a b : Decision (pair_le ties a b) :=
  bool_eq_dec (pair_leb ties a b) true.

Definition argsort_by (ties : nat -> nat -> bool) (xs : list F) : list nat :=
  (merge_sort (pair_le ties) (imap pair xs)).*1.

Definition argsort_ties_first : list F -> list nat := argsort_by Nat.leb.

End Contracts.

(** ** The claim of the design document about the error estimate

    Stated from the document, to compare with [deviations]: every member's
    transform is applied to its full atom set, and the error of a residue in
    a member is the squared distance of its atoms from their cross-member
    mean positions. *)

Section FullAtomError.
Context {F : Type} `{Scalar F}.

Definition csum0 (l : list (coords F)) : coords F :=
  match l with
  | [] => []
  | x :: xs => foldl (zip_with (zip_with vadd)) x xs
  end.

Definition cmean0 (l : list (coords F)) : coords F :=
  (fun residue : list (vec3 F) => vdivn (length l) <$> residue) <$> csum0 l.

Definition spec_align_full_atoms (atoms : list (coords F)) (R : list (mat3 F))
  (t : list (vec3 F)) : list (coords F) :=
  zip_with (fun (a : coords F) Rt =>
              (fun residue : list (vec3 F) => transform Rt.1 Rt.2 <$> residue) <$> a)
    atoms (zip R t).

Definition spec_full_atom_error (aligned : list (coords F)) : list (list F) :=
  (fun a =>
     zip_with (fun residue centre =>
                 fsum (zip_with (fun p c => sqnorm (vsub p c)) residue centre))
       a (cmean0 aligned))
    <$> aligned.

End FullAtomError.

(** ** Reference instances

    Exact rationals for the scalars, and collaborators simple enough to run:
    [to_pdb] returns its arguments, the numbering labels residues by
    position, the encoding is the sequence dictionary itself, and the
    alignment leaves every trace where it is. *)

Definition Qsqrt (x : Q) : Q :=
  Qred (Qmake (Z.sqrt (Qnum x * Zpos (Qden x))) (Qden x)).

#[global] Instance Q_scalar : Scalar Q := {|
  fzero := 0%Q;
  fadd x y := Qred (x + y)%Q;
  fsub x y := Qred (x - y)%Q;
  fmul x y := Qred (x * y)%Q;
  fdivn x n := Qred (x / inject_Z (Z.of_nat n))%Q;
  fsqrt := Qsqrt;
  fleb := Qle_bool
|}.

Definition vec3_zero : vec3 Q := V3 0%Q 0%Q 0%Q.

Definition mat3_identity : mat3 Q :=
  M3 (V3 1%Q 0%Q 0%Q) (V3 0%Q 1%Q 0%Q) (V3 0%Q 0%Q 1%Q).

Definition identity_alignment (traces : list (list (vec3 Q)))
  : list (mat3 Q) * list (vec3 Q) :=
  (replicate (length traces) mat3_identity, replicate (length traces) vec3_zero).

Definition number_by_position (sequence_dict : dict string)
  : numbered nat :=
  (fun entry =>
     (entry.1, imap (fun i c => (i, String c "")) (list_ascii_of_string entry.2)))
    <$> sequence_dict.

Abbreviation demo_pdb := (numbered nat * coords Q)%type.
Abbreviation demo_event := (event Q demo_pdb (dict string)).

Definition demo_external (sorter : list Q -> list nat)
  (outcome : list demo_event -> string -> string -> bool)
  : External Q demo_pdb (dict string) nat := {|
  find_alignment_transform := identity_alignment;
  argsort := sorter;
  to_pdb := pair;
  refine_outcome := outcome;
  number_sequences := number_by_position;
  get_encoding := id
|}.

Definition always_fails : list demo_event -> string -> string -> bool :=
  fun _ _ _ => false.

Definition always_succeeds : list demo_event -> string -> string -> bool :=
  fun _ _ _ => true.

(** One residue of two atoms, the first at [(x, 0, 0)]. *)
Definition residue_at (x y : Z) : list (vec3 Q) :=
  [V3 (inject_Z x) 0%Q 0%Q; V3 (inject_Z x) (inject_Z y) 0%Q].

(** Three members whose mean errors are 9, 1 and 4. *)
Definition three_members : list (coords Q * unit) :=
  [([residue_at 5 1], tt); ([residue_at 1 1], tt); ([residue_at 0 1], tt)].

(** Two members with the same coordinates. *)
Definition twin_members : list (coords Q * unit) :=
  [([residue_at 1 1], tt); ([residue_at 1 1], tt)].

(** Two members with the same backbone trace and different second atoms. *)
Definition side_chain_members : list (coords Q * unit) :=
  [([residue_at 1 1], tt); ([residue_at 1 3], tt)].

Definition demo_numbering : numbered nat :=
  number_by_position [("H", "EVQ"); ("L", "DIQ")].

(** The collaborators of the examples: [refine] always failing or always
    succeeding. *)
Definition demo_failing : External Q demo_pdb (dict string) nat :=
  demo_external argsort_ties_first always_fails.

Definition demo_succeeding : External Q demo_pdb (dict string) nat :=
  demo_external argsort_ties_first always_succeeds.

(** A predictor with one model, which answers the same coordinates for every
    input. *)
Definition demo_builder : ABodyBuilder2 Q (dict string) unit := {|
  device := "cpu";
  models := [("antibody_model_1", fun _ _ => ([residue_at 1 1], tt))]
|}.

(** An object with no member; [__init__] cannot build it ([torch.stack]
    refuses an empty list), assigning to its fields can. *)
Definition empty_antibody : Antibody Q unit nat := {|
  numbered_sequences := demo_numbering;
  atoms := [];
  encodings := [];
  self_R := [];
  self_t := [];
  aligned_traces := [];
  error_estimates := [];
  ranking := []
|}.

(** ** Relations the statements use *)

Section Relations.
Context {F : Type} `{Scalar F} {Pdb Enc Emb Label : Type}.
Context {E : External F Pdb Enc Label}.

(** A computation that leaves the object of every world as it found it. *)
Definition preserves_obj {O A : Type} (m : Py (F:=F) (Pdb:=Pdb) (Enc:=Enc) O A)
  : Prop :=
  forall w, obj (m w).2 = obj w.

(** The file a member is written to by [save_all]: its rank position and its
    text. *)
Definition unrefined_file (dirname : string) (file : nat * Pdb)
  : event F Pdb Enc :=
  EvWrite (path_join dirname (rank_filename file.1)) file.2.

(** Member [i] stands at position [file.1] of the ranking, and [file.2] is
    its unrefined structure. *)
Definition ranked_as (self : Antibody F Emb Label) (i : nat) (file : nat * Pdb)
  : Prop :=
  ranking self !! file.1 = Some i /\ unrefined self i = Ok file.2.

(** [tr] is the backbone trace of the coordinates [x]: atom 0 of every
    residue. *)
Definition backbone_of (x : coords F) (tr : list (vec3 F)) : Prop :=
  Forall2 (fun residue p => residue !! 0 = Some p) x tr.

End Relations.

(** ** The invariant of a constructed [Antibody] *)

Definition well_formed {F Emb Label : Type} (self : Antibody F Emb Label)
  : Prop :=
  0 < length (atoms self) /\
  length (self_R self) = length (atoms self) /\
  length (self_t self) = length (atoms self) /\
  ranking self ≡ₚ seq 0 (length (atoms self)).

(** ** Shapes *)

(** The residue count of the first member; 0 for no member. *)
Definition first_size {A} (xs : list (list A)) : nat :=
  match xs with
  | [] => 0
  | x :: _ => length x
  end.

(** A predictor built with [model_ids = []]. *)
Definition no_models_builder : ABodyBuilder2 Q (dict string) unit := {|
  device := "cpu";
  models := []
|}.

(** ** [ABodyBuilder2.__init__]: loading the models *)

(** The module constants [embed_dim] and [model_urls]. *)
Definition embed_dim : dict nat :=
  [("antibody_model_1", 128); ("antibody_model_2", 256);
   ("antibody_model_3", 256); ("antibody_model_4", 256)].

Definition model_urls : dict string :=
  [("antibody_model_1",
    "https://zenodo.org/record/7258553/files/antibody_model_1?download=1");
   ("antibody_model_2",
    "https://zenodo.org/record/7258553/files/antibody_model_2?download=1");
   ("antibody_model_3",
    "https://zenodo.org/record/7258553/files/antibody_model_3?download=1");
   ("antibody_model_4",
    "https://zenodo.org/record/7258553/files/antibody_model_4?download=1")].

(** [d[key] = v]: a present key keeps its place. *)
Fixpoint dict_set {V} (d : dict V) (key : string) (v : V) : dict V :=
  match d with
  | [] => [(key, v)]
  | (k, x) :: d' =>
      if bool_decide (k = key) then (k, v) :: d' else (k, x) :: dict_set d' key v
  end.

(** [f"antibody_model_{id}"]. *)
Definition model_file_of (id : Z) : string := "antibody_model_" +:+ pretty id.

Arguments model_file_of : simpl never.

Definition downloading_message (model_file : string) : string :=
  "Downloading weights for " +:+ model_file +:+ "...".

Definition error_message (model_file : string) : string :=
  "ERROR " +:+ model_file +:+ " not downloaded or corrupted.".

Section Loading.
Context {F : Type} {Enc Emb : Type}.
(** [Net]: a [StructureModule] object. *)
Context {Net : Type}.

Inductive load_event :=
| LdExists (path : string)                 (* [os.path.exists] *)
| LdPrint (msg : string)
| LdDownload (url path : string)           (* [download_file] *)
| LdLoad (path device : string).           (* [torch.load], [load_state_dict] *)

(** What the constructor gets from outside.  [download_file] and the loading
    of the weights may raise; like [refine], they answer as functions of the
    log so far. *)
Class Loader := {
  cuda_is_available : bool;
  (** [os.path.dirname(os.path.realpath(__file__))] *)
  current_directory : string;
  (** [StructureModule(rel_pos_dim, embed_dim).to(device)] *)
  structure_module : nat -> nat -> string -> Net;
  path_exists : list load_event -> string -> bool;
  download_file : list load_event -> string -> string -> option exn;
  (** [model.load_state_dict(torch.load(path, map_location=device))] *)
  load_state : list load_event -> Net -> string -> string -> res Net;
  (** [model.eval()] *)
  module_eval : Net -> Net;
  (** [model(encoding, full_seq)] *)
  module_call : Net -> Enc -> string -> coords F * Emb
}.

Context {L : Loader}.

(** [os.path.join(current_directory, "trained_model", model_file)]. *)
Definition weights_path_of (model_file : string) : string :=
  path_join (path_join current_directory "trained_model") model_file.

(** The part of the [try] block before the weights are loaded. *)
Definition fetch_weights (model_file weights_path : string)
  (lg : list load_event) : res unit * list load_event :=
  let present := path_exists lg weights_path in
  let lg := lg ++ [LdExists weights_path] in
  if present then (Ok tt, lg)
  else
    let lg := lg ++ [LdPrint (downloading_message model_file)] in
    match dict_get model_urls model_file with
    | Raise e => (Raise e, lg)
    | Ok url =>
        (match download_file lg url weights_path with
         | Some e => Raise e
         | None => Ok tt
         end,
         lg ++ [LdDownload url weights_path])
    end.

(** The [try] block: fetching and loading; [except] prints and raises again. *)
Definition try_load (device model_file weights_path : string) (model : Net)
  (lg : list load_event) : res Net * list load_event :=
  let guarded :=
    match fetch_weights model_file weights_path lg with
    | (Raise e, lg) => (Raise e, lg)
    | (Ok _, lg) =>
        (load_state lg model weights_path device,
         lg ++ [LdLoad weights_path device])
    end in
  match guarded with
  | (Raise e, lg) => (Raise e, lg ++ [LdPrint (error_message model_file)])
  | (Ok model, lg) => (Ok model, lg)
  end.

(** One iteration of the loop over [model_ids]. *)
Definition load_model (device : string) (id : Z)
  (models : dict (Enc -> string -> coords F * Emb)) (lg : list load_event)
  : res (dict (Enc -> string -> coords F * Emb)) * list load_event :=
  let model_file := model_file_of id in
  match dict_get embed_dim model_file with
  | Raise e => (Raise e, lg)
  | Ok dim =>
      let model := structure_module 64 dim device in
      let weights_path := weights_path_of model_file in
      match try_load device model_file weights_path model lg with
      | (Raise e, lg) => (Raise e, lg)
      | (Ok model, lg) =>
          (Ok (dict_set models model_file (module_call (module_eval model))), lg)
      end
  end.

Fixpoint load_models (device : string) (ids : list Z)
  (models : dict (Enc -> string -> coords F * Emb)) (lg : list load_event)
  : res (dict (Enc -> string -> coords F * Emb)) * list load_event :=
  match ids with
  | [] => (Ok models, lg)
  | id :: rest =>
      match load_model device id models lg with
      | (Raise e, lg) => (Raise e, lg)
      | (Ok models, lg) => load_models device rest models lg
      end
  end.

(** [ABodyBuilder2.__init__(model_ids = [1,2,3,4])]. *)
Definition ABodyBuilder2_init (model_ids : option (list Z))
  : res (ABodyBuilder2 F Enc Emb) * list load_event :=
  let device := if cuda_is_available then "cuda" else "cpu" in
  match load_models device (default [1; 2; 3; 4]%Z model_ids) [] [] with
  | (Raise e, lg) => (Raise e, lg)
  | (Ok models, lg) => (Ok {| device := device; models := models |}, lg)
  end.

(** Every download in a log is called for: it follows a check that found
    the weights file of a model missing and the announcement of the download,
    and it fetches the URL of that model. *)
Definition downloads_justified (lg : list load_event) : Prop :=
  forall before url path after,
    lg = before ++ LdDownload url path :: after ->
    exists earlier model_file,
      before = earlier ++ [LdExists path; LdPrint (downloading_message model_file)] /\
      path_exists earlier path = false /\
      path = weights_path_of model_file /\
      dict_get model_urls model_file = Ok url.

End Loading.

Arguments load_event : clear implicits.
Arguments Loader F Enc Emb Net : clear implicits.

(** Loaders for the examples: no GPU; a weights file is on disk when it was
    there from the start or has been downloaded; a network is its embedding
    size and device, and answers one fixed structure. *)
Definition demo_downloaded (lg : list (load_event)) (path : string) : bool :=
  existsb (fun ev => match ev with
                     | LdDownload _ p => bool_decide (p = path)
                     | _ => false
                     end) lg.

Definition demo_loader_with (on_disk : list string)
  (corrupted : list string) : Loader Q (dict string) unit (nat * string) := {|
  cuda_is_available := false;
  current_directory := "/opt/ImmuneBuilder";
  structure_module := fun _ dim device => (dim, device);
  path_exists := fun lg path =>
    bool_decide (path ∈ on_disk) || demo_downloaded lg path;
  download_file := fun _ _ _ => None;
  load_state := fun _ model path _ =>
    if bool_decide (path ∈ corrupted) then Raise RuntimeError else Ok model;
  module_eval := fun model => model;
  module_call := fun _ _ _ => ([residue_at 1 1], tt)
|}.

(** Models 1 and 2 on disk, the others to download, all sound. *)
Definition demo_loader : Loader Q (dict string) unit (nat * string) :=
  demo_loader_with
    ["/opt/ImmuneBuilder/trained_model/antibody_model_1";
     "/opt/ImmuneBuilder/trained_model/antibody_model_2"] [].


(** * Properties *)

(** ** The reference sorter meets the contract of [argsort] *)

Section SorterFacts.
Context {F : Type} `{Scalar F}.
Variable ties : nat -> nat -> bool.
Hypothesis fleb_total : forall x y : F, fleb x y = true \/ fleb y x = true.
Hypothesis fleb_trans :
  forall x y z : F, fleb x y = true -> fleb y z = true -> fleb x z = true.
Hypothesis ties_total : forall i j, ties i j = true \/ ties j i = true.
Hypothesis ties_trans :
  forall i j k, ties i j = true -> ties j k = true -> ties i k = true.

Lemma pair_le_spec (a b : nat * F) :
  pair_le ties a b <->
  fleb a.2 b.2 = true /\ (fleb b.2 a.2 = true -> ties a.1 b.1 = true).
Proof.
  unfold pair_le, pair_leb.
  rewrite andb_true_iff, orb_true_iff, negb_true_iff.
  split; intros [Hab Hties]; split; try done.
  - intros Hba. destruct Hties as [Hn|]; [congruence | done].
  - destruct (fleb b.2 a.2); [right; auto | by left].
Qed.

#[local] Instance pair_le_trans : Transitive (pair_le ties).
Proof.
  intros a b c. rewrite !pair_le_spec. intros [Hab Tab] [Hbc Tbc]. split.
  - eauto.
  - intros Hca. apply ties_trans with b.1.
    + apply Tab. eauto.
    + apply Tbc. eauto.
Qed.

#[local] Instance pair_le_total : Total (pair_le ties).
Proof.
  intros a b. rewrite !pair_le_spec.
  destruct (fleb a.2 b.2) eqn:Hab, (fleb b.2 a.2) eqn:Hba.
  - destruct (ties_total a.1 b.1); [left | right]; done.
  - left. done.
  - right. done.
  - destruct (fleb_total a.2 b.2); congruence.
Qed.

Lemma imap_pair_indices (xs : list F) :
  (imap pair xs).*1 = seq 0 (length xs).
Proof.
  rewrite fmap_imap.
  transitivity (id <$> seq 0 (length xs)); [|apply list_fmap_id].
  rewrite <- (imap_seq_0 xs id). by apply imap_ext.
Qed.

Lemma argsort_by_perm (xs : list F) :
  argsort_by ties xs ≡ₚ seq 0 (length xs).
Proof.
  unfold argsort_by.
  rewrite merge_sort_Permutation. by rewrite imap_pair_indices.
Qed.

Lemma argsort_by_lookup (xs : list F) (p i : nat) (x : F) :
  argsort_by ties xs !! p = Some i -> xs !! i = Some x ->
  merge_sort (pair_le ties) (imap pair xs) !! p = Some (i, x).
Proof.
  unfold argsort_by. rewrite list_lookup_fmap.
  destruct (merge_sort _ _ !! p) as [[i' x']|] eqn:Hp; simpl; [|done].
  intros [= ->] Hx. f_equal. f_equal.
  assert ((i, x') ∈ imap pair xs) as Hin.
  { rewrite <- (merge_sort_Permutation (pair_le ties)).
    by eapply list_elem_of_lookup_2. }
  apply elem_of_lookup_imap in Hin as (k & y & [= -> ->] & Hk).
  congruence.
Qed.

Lemma StronglySorted_lookup {A} (R : relation A) (l : list A) p q a b :
  StronglySorted R l -> p < q -> l !! p = Some a -> l !! q = Some b -> R a b.
Proof.
  intros Hs. revert p q. induction Hs as [|c l Hs IH Hall]; intros p q Hpq.
  - done.
  - destruct q as [|q]; [lia|]. destruct p as [|p]; simpl.
    + intros [= ->] Hq. rewrite Forall_forall in Hall.
      apply Hall. by eapply list_elem_of_lookup_2.
    + apply IH. lia.
Qed.

Lemma argsort_by_sorted (xs : list F) (p q i j : nat) (x y : F) :
  p < q ->
  argsort_by ties xs !! p = Some i -> argsort_by ties xs !! q = Some j ->
  xs !! i = Some x -> xs !! j = Some y ->
  fleb x y = true /\ (fleb y x = true -> ties i j = true).
Proof.
  intros Hpq Hp Hq Hx Hy.
  pose proof (argsort_by_lookup _ _ _ _ Hp Hx) as Hp'.
  pose proof (argsort_by_lookup _ _ _ _ Hq Hy) as Hq'.
  pose proof (StronglySorted_merge_sort (pair_le ties) (imap pair xs)) as Hs.
  pose proof (StronglySorted_lookup _ _ _ _ _ _ Hs Hpq Hp' Hq') as Hle.
  by apply pair_le_spec in Hle.
Qed.

Lemma argsort_by_contract : argsort_contract (argsort_by ties).
Proof.
  intros xs. split; [apply argsort_by_perm|].
  intros p q i j x y Hpq Hp Hq Hx Hy.
  destruct (decide (p = q)) as [->|Hne].
  - assert (i = j) as -> by congruence.
    assert (x = y) as -> by congruence.
    by destruct (fleb_total y y).
  - eapply (argsort_by_sorted xs p q); eauto. lia.
Qed.

End SorterFacts.

Lemma Qle_bool_total (x y : Q) : Qle_bool x y = true \/ Qle_bool y x = true.
Proof.
  rewrite !Qle_bool_iff.
  destruct (Qlt_le_dec x y) as [Hlt|Hle]; [left; by apply Qlt_le_weak | by right].
Qed.

Lemma Qle_bool_trans (x y z : Q) :
  Qle_bool x y = true -> Qle_bool y z = true -> Qle_bool x z = true.
Proof. rewrite !Qle_bool_iff. apply Qle_trans. Qed.

Lemma argsort_ties_first_contract : argsort_contract (argsort_ties_first (F:=Q)).
Proof.
  apply argsort_by_contract.
  - apply Qle_bool_total.
  - apply Qle_bool_trans.
  - intros a b. rewrite !Nat.leb_le. lia.
  - intros a b c. rewrite !Nat.leb_le. lia.
Qed.

Lemma identity_alignment_contract : alignment_contract identity_alignment.
Proof. intros traces. unfold identity_alignment. simpl. by rewrite !length_replicate. Qed.

(** ** Construction *)

Section Construction.
Context {F : Type} `{Scalar F} {Pdb Enc Emb Label : Type}.
Context {E : External F Pdb Enc Label}.

Lemma res_mapM_length {A B} (f : A -> res B) (l : list A) (l' : list B) :
  res_mapM f l = Ok l' -> length l' = length l.
Proof.
  revert l'. induction l as [|x l IH]; intros l'; simpl.
  - by intros [= <-].
  - destruct (f x); simpl; [|done].
    destruct (res_mapM f l); simpl; [|done].
    intros [= <-]. simpl. f_equal. by apply IH.
Qed.

Lemma stack_Ok (l l' : list (list (vec3 F))) :
  stack l = Ok l' -> l' = l /\ 0 < length l.
Proof.
  unfold stack. destruct l as [|x xs]; [done|].
  destruct (forallb _ xs); [|done].
  intros [= <-]. simpl. split; [done | lia].
Qed.

Lemma length_align (traces : list (list (vec3 F))) R t :
  length R = length traces -> length t = length traces ->
  length (align traces R t) = length traces.
Proof.
  intros HR Ht. unfold align. rewrite length_zip_with, length_zip. lia.
Qed.

Lemma length_deviations (aligned : list (list (vec3 F))) :
  length (deviations aligned) = length aligned.
Proof. unfold deviations. by rewrite length_fmap. Qed.

(** What a successful [__init__] leaves in the object. *)
Lemma Antibody_init_Ok ns (predictions : list (coords F * Emb)) self :
  Antibody_init ns predictions = Ok self ->
  exists traces,
    res_mapM trace_of predictions.*1 = Ok traces /\
    0 < length predictions /\
    numbered_sequences self = ns /\
    atoms self = predictions.*1 /\
    encodings self = predictions.*2 /\
    self_R self = (find_alignment_transform traces).1 /\
    self_t self = (find_alignment_transform traces).2 /\
    aligned_traces self = align traces (self_R self) (self_t self) /\
    error_estimates self = deviations (aligned_traces self) /\
    ranking self = argsort (fmean <$> error_estimates self).
Proof.
  unfold Antibody_init.
  destruct (res_mapM trace_of predictions.*1) as [rows|] eqn:Hrows; [|done].
  simpl. destruct (stack rows) as [traces|] eqn:Hstack; [|done].
  simpl. intros [= <-]. simpl.
  apply stack_Ok in Hstack as [-> Hpos].
  apply res_mapM_length in Hrows as Hlen. rewrite length_fmap in Hlen.
  exists rows. repeat split; try done. lia.
Qed.

Hypothesis alignment_ok : alignment_contract find_alignment_transform.
Hypothesis argsort_ok : argsort_contract argsort.

Lemma Antibody_init_error_rows ns (predictions : list (coords F * Emb)) self :
  Antibody_init ns predictions = Ok self ->
  length (error_estimates self) = length predictions.
Proof.
  intros (traces & Htr & _ & _ & _ & _ & HR & Ht & Hal & Herr & _)%Antibody_init_Ok.
  apply res_mapM_length in Htr. rewrite length_fmap in Htr.
  destruct (alignment_ok traces) as [HlR Hlt].
  rewrite Herr, length_deviations, Hal, length_align; [done|rewrite HR|rewrite Ht]; done.
Qed.

Lemma Antibody_init_well_formed ns (predictions : list (coords F * Emb)) self :
  Antibody_init ns predictions = Ok self -> well_formed self.
Proof.
  intros Hinit.
  pose proof (Antibody_init_error_rows _ _ _ Hinit) as Herr.
  apply Antibody_init_Ok in Hinit
    as (traces & Htr & Hpos & _ & Hatoms & _ & HR & Ht & _ & _ & Hrank).
  apply res_mapM_length in Htr. rewrite length_fmap in Htr.
  destruct (alignment_ok traces) as [HlR Hlt].
  unfold well_formed. rewrite Hatoms, length_fmap, HR, Ht, Hrank.
  repeat split; try lia.
  destruct (argsort_ok (fmean <$> error_estimates self)) as [Hperm _].
  by rewrite Hperm, length_fmap, Herr.
Qed.

(** C4. For every [Antibody] built from [M >= 1] member predictions, the
    ranking is a permutation of the indices [0 .. M-1], and it is ordered
    ascending by the members' mean per-residue error: a member at an earlier
    position has a mean error no greater than a member at a later one. *)
Theorem ranking_sorted_permutation ns (predictions : list (coords F * Emb)) self :
  Antibody_init ns predictions = Ok self ->
  1 <= length predictions /\
  length (atoms self) = length predictions /\
  ranking self ≡ₚ seq 0 (length predictions) /\
  forall p q i j : nat,
    p <= q -> ranking self !! p = Some i -> ranking self !! q = Some j ->
    exists ei ej : list F,
      error_estimates self !! i = Some ei /\
      error_estimates self !! j = Some ej /\
      fleb (fmean ei) (fmean ej) = true.
Proof.
  intros Hinit.
  pose proof (Antibody_init_error_rows _ _ _ Hinit) as Herr.
  pose proof (Antibody_init_well_formed _ _ _ Hinit) as (Hpos & _ & _ & Hperm).
  apply Antibody_init_Ok in Hinit
    as (_ & _ & _ & _ & Hatoms & _ & _ & _ & _ & _ & Hrank).
  assert (length (atoms self) = length predictions) as Hlen
    by (by rewrite Hatoms, length_fmap).
  rewrite Hlen in Hperm, Hpos.
  repeat split; try done.
  intros p q i j Hpq Hp Hq.
  assert (forall k n, ranking self !! k = Some n ->
            exists e, error_estimates self !! n = Some e) as Hrow.
  { intros k n Hk. apply lookup_lt_is_Some. rewrite Herr.
    apply list_elem_of_lookup_2 in Hk. rewrite Hperm in Hk.
    apply elem_of_seq in Hk. lia. }
  destruct (Hrow _ _ Hp) as [ei Hei], (Hrow _ _ Hq) as [ej Hej].
  exists ei, ej. repeat split; try done.
  destruct (argsort_ok (fmean <$> error_estimates self)) as [_ Hasc].
  rewrite Hrank in Hp, Hq.
  eapply (Hasc p q i j); eauto; rewrite list_lookup_fmap.
  - by rewrite Hei.
  - by rewrite Hej.
Qed.

End Construction.

(** ** The output stage *)

Section Output.
Context {F : Type} `{Scalar F} {Pdb Enc Emb Label : Type}.
Context {E : External F Pdb Enc Label}.

Lemma list_index_Some (x : nat) (l : list nat) (k : nat) :
  list_index x l = Some k -> l !! k = Some x.
Proof.
  revert k. induction l as [|y l IH]; intros k; simpl; [done|].
  case_bool_decide as Hy.
  - intros [= <-]. simpl. by f_equal.
  - destruct (list_index x l) as [k'|]; simpl; [|done].
    intros [= <-]. simpl. by apply IH.
Qed.

Lemma list_index_elem_of (x : nat) (l : list nat) :
  x ∈ l -> exists k, list_index x l = Some k.
Proof.
  induction l as [|y l IH]; simpl.
  - by intros ?%elem_of_nil.
  - intros Hin. case_bool_decide as Hy; [by eexists|].
    apply elem_of_cons in Hin as [->|Hin]; [done|].
    destruct (IH Hin) as [k ->]. by eexists.
Qed.

(** In a list without repetitions [index] inverts the lookup. *)
Lemma list_index_lookup (l : list nat) (k x : nat) :
  NoDup l -> l !! k = Some x -> list_index x l = Some k.
Proof.
  intros Hnd Hk.
  destruct (list_index_elem_of x l) as [k' Hk'].
  { by eapply list_elem_of_lookup_2. }
  rewrite Hk'. f_equal.
  apply list_index_Some in Hk'. by eapply NoDup_lookup.
Qed.

Variable self : Antibody F Emb Label.
Hypothesis self_ok : well_formed self.

Lemma ranking_NoDup : NoDup (ranking self).
Proof.
  destruct self_ok as (_ & _ & _ & Hperm). rewrite Hperm. apply NoDup_seq.
Qed.

Lemma ranking_lookup_lt (k i : nat) :
  ranking self !! k = Some i -> k < length (atoms self) /\ i < length (atoms self).
Proof.
  destruct self_ok as (_ & _ & _ & Hperm). intros Hk. split.
  - apply lookup_lt_Some in Hk. by rewrite Hperm, length_seq in Hk.
  - apply list_elem_of_lookup_2 in Hk. rewrite Hperm in Hk.
    apply elem_of_seq in Hk. lia.
Qed.

(** [self.ranking.index(i)] is defined for every member [i]. *)
Lemma ranking_index_member (i : nat) :
  i < length (atoms self) ->
  exists k, list_index i (ranking self) = Some k /\
            ranking self !! k = Some i /\ k < length (atoms self).
Proof.
  intros Hi. destruct self_ok as (_ & _ & _ & Hperm).
  destruct (list_index_elem_of i (ranking self)) as [k Hk].
  { rewrite Hperm. apply elem_of_seq. lia. }
  exists k. split; [done|].
  apply list_index_Some in Hk. split; [done|].
  by apply ranking_lookup_lt in Hk as [? _].
Qed.

Lemma unrefined_member (m : nat) :
  m < length (atoms self) -> exists text, unrefined self m = Ok text.
Proof.
  intros Hm. destruct self_ok as (_ & HR & Ht & _). unfold unrefined.
  destruct (lookup_lt_is_Some_2 (atoms self) m) as [a ->]; [done|].
  destruct (lookup_lt_is_Some_2 (self_t self) m) as [ti ->]; [lia|].
  destruct (lookup_lt_is_Some_2 (self_R self) m) as [Ri ->]; [lia|].
  simpl. by eexists.
Qed.

Lemma save_single_unrefined_run (filename : string) (m : nat) text
  (l : list (event F Pdb Enc)) :
  unrefined self m = Ok text ->
  save_single_unrefined filename m (World self l)
  = (Ok tt, World self (l ++ [EvWrite filename text])).
Proof.
  intros Htext.
  unfold save_single_unrefined, bind, get_self, lift, emit. simpl.
  by rewrite Htext.
Qed.

Lemma ranking_index_run (i k : nat) (l : list (event F Pdb Enc)) :
  list_index i (ranking self) = Some k ->
  ranking_index i (World self l) = (Ok k, World self l).
Proof.
  intros Hk. unfold ranking_index, bind, get_self, lift. simpl.
  by rewrite Hk.
Qed.

End Output.

Section SaveLoop.
Context {F : Type} `{Scalar F} {Pdb Enc Emb Label : Type}.
Context {E : External F Pdb Enc Label}.
Variable self : Antibody F Emb Label.
Hypothesis self_ok : well_formed self.

Lemma refine_calls_app (l1 l2 : list (event F Pdb Enc)) :
  refine_calls (l1 ++ l2) = refine_calls l1 + refine_calls l2.
Proof.
  induction l1 as [|ev l1 IH]; simpl; [done|].
  destruct ev; simpl; lia.
Qed.

Lemma refine_calls_round (filename : string) (r : Pdb * bool) :
  refine_calls (round_events (F:=F) (Enc:=Enc) filename r) <= 2.
Proof. destruct r as [text []]; simpl; lia. Qed.

Lemma refine_calls_rounds (filename : string) (rounds : list (Pdb * bool)) :
  refine_calls (flat_map (round_events (F:=F) (Enc:=Enc) filename) rounds)
  <= 2 * length rounds.
Proof.
  induction rounds as [|[text twice] rounds IH]; [simpl; lia|].
  destruct twice; simpl in *; lia.
Qed.

(** The loop of [save] never raises on a constructed object.  It runs some
    of its iterations, each one or two attempts on one member's structure,
    and the flag it leaves is the answer of the last call of [refine]. *)
Lemma save_loop_run (filename : string) (idxs : list nat) :
  (forall i, i ∈ idxs -> i < length (atoms self)) ->
  forall (success : option bool) (l : list (event F Pdb Enc)),
  exists (rounds : list (Pdb * bool)) (success' : option bool),
    save_loop filename idxs success (World self l)
    = (Ok success', World self (l ++ flat_map (round_events filename) rounds)) /\
    length rounds <= length idxs /\
    Forall (fun r => exists m, m < length (atoms self) /\
                               unrefined self m = Ok r.1) rounds /\
    (idxs = [] -> rounds = [] /\ success' = success) /\
    (idxs <> [] ->
     rounds <> [] /\
     exists h, success' = Some (refine_outcome h filename filename)).
Proof.
  induction idxs as [|i rest IH]; intros Hidx success l.
  - exists [], success. simpl. rewrite app_nil_r. repeat split; done.
  - destruct (ranking_index_member self self_ok i) as (k & Hk & _ & Hklt).
    { apply Hidx. by left. }
    destruct (unrefined_member self self_ok k Hklt) as [text Htext].
    assert (Hm : exists m, m < length (atoms self) /\ unrefined self m = Ok text)
      by eauto.
    simpl. unfold bind at 1. rewrite (ranking_index_run self i k l Hk).
    unfold bind at 1. rewrite (save_single_unrefined_run self filename k text l Htext).
    unfold bind at 1. unfold refine at 1. simpl.
    destruct (refine_outcome (l ++ [EvWrite filename text]) filename filename)
      eqn:Hfirst.
    + exists [(text, false)], (Some true). unfold ret. simpl.
      rewrite <- ?app_assoc. simpl.
      repeat split; try done; try lia.
      * by constructor.
      * by eexists; rewrite <- Hfirst.
    + unfold bind at 1. rewrite (ranking_index_run self i k _ Hk).
      unfold bind at 1.
      rewrite (save_single_unrefined_run self filename k text _ Htext).
      unfold bind at 1. unfold refine at 1. simpl.
      rewrite <- ?app_assoc. simpl.
      destruct (refine_outcome
                  (l ++ [EvWrite filename text; EvRefine filename filename;
                         EvWrite filename text]) filename filename) eqn:Hsecond.
      * exists [(text, true)], (Some true). unfold ret. simpl.
        rewrite <- ?app_assoc. simpl.
        repeat split; try done; try lia.
        -- by constructor.
        -- by eexists; rewrite <- Hsecond.
      * destruct (IH (fun j Hj => Hidx j (list_elem_of_further _ _ _ Hj))
                    (Some false)
                    (l ++ [EvWrite filename text; EvRefine filename filename;
                           EvWrite filename text; EvRefine filename filename]))
          as (rounds & success' & Hrun & Hlen & Hall & Hnil & Hcons).
        exists ((text, true) :: rounds), success'.
        rewrite <- ?app_assoc. simpl. rewrite Hrun. simpl. rewrite <- ?app_assoc. simpl.
        repeat split; try done; try lia.
        -- by constructor.
        -- destruct rest as [|j rest'].
           ++ destruct Hnil as [_ ->]; [done|]. by eexists; rewrite <- Hsecond.
           ++ by destruct Hcons as [_ ?].
Qed.

End SaveLoop.

(** ** [save]: the single-file mode *)

Section Save.
Context {F : Type} `{Scalar F} {Pdb Enc Emb Label : Type}.
Context {E : External F Pdb Enc Label}.

Lemma elem_of_seq_0 (n i : nat) : i ∈ seq 0 n -> i < n.
Proof. rewrite elem_of_seq. lia. Qed.

(** [save] on a constructed object: the rounds of the loop, the warning
    unless the last call of [refine] answered success, the annotation. *)
Lemma save_run (self : Antibody F Emb Label) (filename : option string)
  (l : list (event F Pdb Enc)) :
  well_formed self ->
  let target := default "ABodyBuilder2_output.pdb" filename in
  exists (rounds : list (Pdb * bool)) (h : list (event F Pdb Enc)),
    save filename (World self l)
    = (Ok tt,
       World self
         (l ++ flat_map (round_events target) rounds
            ++ (if refine_outcome h target target then []
                else [EvPrint (failed_message target)])
            ++ [EvAddErrors target (confidence self) [header]])) /\
    rounds <> [] /\
    length rounds <= length (atoms self) /\
    Forall (fun r => exists m, m < length (atoms self) /\
                               unrefined self m = Ok r.1) rounds.
Proof.
  intros Hwf target.
  destruct (save_loop_run self Hwf target (seq 0 (length (atoms self)))
              (elem_of_seq_0 _) None l)
    as (rounds & success' & Hrun & Hlen & Hall & _ & Hcons).
  destruct Hcons as (Hne & h & ->).
  { destruct Hwf as [Hpos _]. destruct (atoms self); [simpl in Hpos; lia | done]. }
  rewrite length_seq in Hlen.
  exists rounds, h. repeat split; try done.
  unfold save. fold target. unfold bind at 1. unfold get_self at 1. simpl.
  unfold bind at 1. rewrite Hrun.
  destruct (refine_outcome h target target);
    unfold bind, ret, emit, get_self; simpl; by rewrite <- ?app_assoc.
Qed.

(** Whatever [refine] answers, the first thing [save] does on a constructed
    object is to write the structure of the member whose index is
    [self.ranking.index(0)], the rank position of member 0. *)
Lemma save_first_write (self : Antibody F Emb Label) (filename : option string)
  (l : list (event F Pdb Enc)) :
  well_formed self ->
  let target := default "ABodyBuilder2_output.pdb" filename in
  exists (k : nat) (text : Pdb) (later : list (event F Pdb Enc)),
    list_index 0 (ranking self) = Some k /\
    unrefined self k = Ok text /\
    save filename (World self l)
    = (Ok tt, World self (l ++ EvWrite target text :: later)).
Proof.
  intros Hwf target.
  destruct Hwf as (Hpos & HR & Ht & Hperm).
  pose proof (conj Hpos (conj HR (conj Ht Hperm)) : well_formed self) as Hwf.
  destruct (ranking_index_member self Hwf 0 Hpos) as (k & Hk & _ & Hklt).
  destruct (unrefined_member self Hwf k Hklt) as [text Htext].
  destruct (atoms self) as [|a rest] eqn:Hatoms; [simpl in Hpos; lia|].
  assert (forall i, i ∈ seq 1 (length rest) -> i < length (atoms self)) as Hidx.
  { intros i Hi. apply elem_of_seq in Hi. rewrite Hatoms. simpl. lia. }
  exists k, text.
  unfold save. fold target. unfold bind at 1. unfold get_self at 1. simpl.
  rewrite Hatoms. simpl.
  unfold bind at 1. unfold bind at 1. rewrite (ranking_index_run self 0 k l Hk).
  unfold bind at 1. rewrite (save_single_unrefined_run self target k text l Htext).
  unfold bind at 1. unfold refine at 1. simpl.
  destruct (refine_outcome (l ++ [EvWrite target text]) target target).
  { eexists. split; [done|]. split; [done|].
    unfold bind, ret, emit, get_self. simpl. rewrite <- ?app_assoc. simpl. done. }
  unfold bind at 1. rewrite (ranking_index_run self 0 k _ Hk).
  unfold bind at 1. rewrite (save_single_unrefined_run self target k text _ Htext).
  unfold bind at 1. unfold refine at 1. simpl.
  destruct (refine_outcome _ target target).
  { eexists. split; [done|]. split; [done|].
    unfold bind, ret, emit, get_self. simpl. rewrite <- ?app_assoc. simpl. done. }
  destruct (save_loop_run self Hwf target (seq 1 (length rest)) Hidx (Some false)
              (l ++ [EvWrite target text; EvRefine target target;
                     EvWrite target text; EvRefine target target]))
    as (rounds & success' & Hrun & _ & _ & Hnil & Hcons).
  rewrite <- ?app_assoc. simpl. rewrite Hrun.
  assert (exists b, success' = Some b) as [b ->].
  { destruct (seq 1 (length rest)) as [|? ?].
    - destruct Hnil as [_ ->]; [done | by eexists].
    - destruct Hcons as (_ & h & ->); [done | by eexists]. }
  destruct b; (eexists; split; [done|]; split; [done|]);
    unfold bind, ret, emit, get_self; simpl; rewrite <- ?app_assoc; simpl; done.
Qed.

(** One round of the loop of [save] on a member that can be written: a
    [break] after the first attempt or after the second, or the next round. *)
Lemma save_loop_cons (self : Antibody F Emb Label) (filename : string)
  (i k : nat) (rest : list nat) (text : Pdb) (success : option bool)
  (l : list (event F Pdb Enc)) :
  list_index i (ranking self) = Some k ->
  unrefined self k = Ok text ->
  save_loop filename (i :: rest) success (World self l)
  = if refine_outcome (l ++ [EvWrite filename text]) filename filename
    then (Ok (Some true), World self (l ++ attempt filename text))
    else if refine_outcome
              (l ++ attempt filename text ++ [EvWrite filename text])
              filename filename
    then (Ok (Some true),
          World self (l ++ attempt filename text ++ attempt filename text))
    else save_loop filename rest (Some false)
           (World self (l ++ attempt filename text ++ attempt filename text)).
Proof.
  intros Hk Htext.
  simpl. unfold bind at 1. rewrite (ranking_index_run self i k l Hk).
  unfold bind at 1.
  rewrite (save_single_unrefined_run self filename k text l Htext).
  unfold bind at 1. unfold refine at 1. simpl.
  destruct (refine_outcome (l ++ [EvWrite filename text]) filename filename).
  { unfold ret. by rewrite <- ?app_assoc. }
  unfold bind at 1. rewrite (ranking_index_run self i k _ Hk).
  unfold bind at 1.
  rewrite (save_single_unrefined_run self filename k text _ Htext).
  unfold bind at 1. unfold refine at 1. simpl.
  rewrite <- ?app_assoc. simpl.
  destruct (refine_outcome _ filename filename); [by unfold ret|done].
Qed.

(** Where a call of [refine] can stand in a log that starts with an
    attempt. *)
Lemma refine_split_attempt (filename : string) (text : Pdb)
  (rest before after : list (event F Pdb Enc)) :
  attempt filename text ++ rest = before ++ EvRefine filename filename :: after ->
  (before = [EvWrite filename text] /\ after = rest) \/
  (exists before',
      before = attempt filename text ++ before' /\
      rest = before' ++ EvRefine filename filename :: after).
Proof.
  destruct before as [|b1 [|b2 before']]; simpl; intros Heq; simplify_eq.
  - by left.
  - right. by exists before'.
Qed.

Lemma round_events_nonempty (filename : string) (rounds : list (Pdb * bool)) :
  rounds <> [] -> flat_map (round_events (F:=F) (Enc:=Enc) filename) rounds <> [].
Proof. by destruct rounds as [|[text twice] rounds]. Qed.

(** The loop of [save] on a constructed object, round by round.  Round [k]
    works on the member whose index is [self.ranking.index] of the [k]-th
    loop value; every round but the last makes two attempts; every call of
    [refine] but the last answered failure, and the last one answered
    [succeeded]; a loop that did not succeed ran all its rounds twice. *)
Lemma save_loop_rounds (self : Antibody F Emb Label) (filename : string)
  (idxs : list nat) :
  well_formed self ->
  (forall i, i ∈ idxs -> i < length (atoms self)) ->
  forall (success : option bool) (l : list (event F Pdb Enc)),
  exists (rounds : list (Pdb * bool)) (succeeded : bool),
    save_loop filename idxs success (World self l)
    = (Ok (match idxs with [] => success | _ => Some succeeded end),
       World self (l ++ flat_map (round_events filename) rounds)) /\
    length rounds <= length idxs /\
    (idxs <> [] -> rounds <> []) /\
    (idxs = [] -> succeeded = false) /\
    (forall k r, rounds !! k = Some r ->
       exists i m, idxs !! k = Some i /\
                   list_index i (ranking self) = Some m /\
                   m < length (atoms self) /\ unrefined self m = Ok r.1) /\
    (forall k r, rounds !! k = Some r -> S k < length rounds -> r.2 = true) /\
    (succeeded = false ->
     length rounds = length idxs /\ Forall (fun r => r.2 = true) rounds) /\
    (forall before after,
       flat_map (round_events filename) rounds
       = before ++ EvRefine filename filename :: after ->
       refine_outcome (l ++ before) filename filename
       = succeeded && bool_decide (after = [])).
Proof.
  intros Hwf. induction idxs as [|i rest IH]; intros Hidx success l.
  - exists [], false. simpl. rewrite app_nil_r.
    repeat split; try done. intros before after Heq. by destruct before.
  - destruct (ranking_index_member self Hwf i) as (k & Hk & _ & Hklt).
    { apply Hidx. by left. }
    destruct (unrefined_member self Hwf k Hklt) as [text Htext].
    rewrite (save_loop_cons self filename i k rest text success l Hk Htext).
    destruct (refine_outcome (l ++ [EvWrite filename text]) filename filename)
      eqn:Hfirst.
    { exists [(text, false)], true. simpl.
      repeat split; try done; try lia.
      - intros [|n] r Hr; simpl in Hr; simplify_eq. by exists i, k.
      - intros before after Heq.
        apply (refine_split_attempt filename text []) in Heq
          as [[-> ->] | (before' & _ & Hnil)]; [done | by destruct before']. }
    destruct (refine_outcome
                (l ++ attempt filename text ++ [EvWrite filename text])
                filename filename) eqn:Hsecond.
    { exists [(text, true)], true. simpl.
      repeat split; try done; try lia.
      - intros [|n] r Hr; simpl in Hr; simplify_eq. by exists i, k.
      - intros before after Heq.
        apply (refine_split_attempt filename text (attempt filename text))
          in Heq as [[-> ->] | (before' & -> & Heq)]; [done|].
        apply (refine_split_attempt filename text []) in Heq
          as [[-> ->] | (before'' & _ & Hnil)]; [done | by destruct before'']. }
    destruct (IH (fun j Hj => Hidx j (list_elem_of_further _ _ _ Hj))
                (Some false)
                (l ++ attempt filename text ++ attempt filename text))
      as (rounds & succeeded & Hrun & Hlen & Hne & Hnil & Hmem & Htwice
          & Hfail & Hans).
    exists ((text, true) :: rounds), succeeded. rewrite Hrun.
    split; [|split; [|split; [|split; [|split; [|split; [|split]]]]]].
    + destruct rest; [rewrite Hnil by done|]; simpl; by rewrite <- ?app_assoc.
    + simpl. lia.
    + done.
    + done.
    + intros [|n] r Hr; simpl in Hr; simplify_eq; [by exists i, k|].
      by apply Hmem.
    + intros [|n] r Hr Hlt; simpl in Hr; simplify_eq; [done|].
      apply (Htwice n r Hr). simpl in Hlt. lia.
    + intros Hfailed. destruct (Hfail Hfailed) as [Hall Htwo].
      split; [simpl; by rewrite Hall | by constructor].
    + intros before after Heq.
      change (flat_map (round_events filename) ((text, true) :: rounds))
        with (attempt (F:=F) (Enc:=Enc) filename text
                ++ (attempt filename text
                      ++ flat_map (round_events filename) rounds)) in Heq.
      apply refine_split_attempt in Heq as [[-> ->] | (before' & -> & Heq)].
      { rewrite Hfirst. by rewrite andb_false_r. }
      apply refine_split_attempt in Heq as [[-> ->] | (before'' & -> & Heq)].
      { rewrite Hsecond. destruct rest as [|j rest'].
        - by rewrite Hnil.
        - rewrite bool_decide_eq_false_2; [by rewrite andb_false_r|].
          by apply round_events_nonempty, Hne. }
      rewrite <- (Hans before'' after Heq). f_equal.
      by rewrite <- !app_assoc.
Qed.

Hypothesis alignment_ok : alignment_contract find_alignment_transform.
Hypothesis argsort_ok : argsort_contract argsort.

(** C1, as the code has it.  On an ensemble of [M] members [save] runs at
    least one and at most [M] rounds.  Round [k] writes the structure of the
    member whose index is [self.ranking.index(k)] and calls [refine] on it,
    and does both again when that call failed.  Every call of [refine] but
    the last answered failure: the loop stops at the first success, and after
    two failures it goes on to the next round and another member.  Without a
    success all [M] rounds make two attempts and the warning is printed; the
    annotation comes last either way.  In all, [refine] is called at most
    [2 * M] times. *)
Theorem save_refine_calls_bounded ns (predictions : list (coords F * Emb))
  (self : Antibody F Emb Label) (filename : option string)
  (l : list (event F Pdb Enc)) :
  Antibody_init ns predictions = Ok self ->
  let target := default "ABodyBuilder2_output.pdb" filename in
  exists (rounds : list (Pdb * bool)) (succeeded : bool),
    save filename (World self l)
    = (Ok tt,
       World self
         (l ++ flat_map (round_events target) rounds
            ++ (if succeeded then [] else [EvPrint (failed_message target)])
            ++ [EvAddErrors target (confidence self) [header]])) /\
    0 < length rounds <= length predictions /\
    (forall k r, rounds !! k = Some r ->
       exists m, list_index k (ranking self) = Some m /\
                 m < length predictions /\ unrefined self m = Ok r.1) /\
    (forall k r, rounds !! k = Some r -> S k < length rounds -> r.2 = true) /\
    (forall before after,
       flat_map (round_events target) rounds
       = before ++ EvRefine target target :: after ->
       refine_outcome (l ++ before) target target
       = succeeded && bool_decide (after = [])) /\
    (succeeded = false ->
     length rounds = length predictions /\
     Forall (fun r => r.2 = true) rounds) /\
    refine_calls (F:=F) (Pdb:=Pdb) (Enc:=Enc)
      (flat_map (round_events target) rounds
         ++ (if succeeded then [] else [EvPrint (failed_message target)])
         ++ [EvAddErrors target (confidence self) [header]])
    <= 2 * length predictions.
Proof.
  intros Hinit target.
  pose proof (Antibody_init_well_formed alignment_ok argsort_ok _ _ _ Hinit) as Hwf.
  apply Antibody_init_Ok in Hinit as (_ & _ & Hpos & _ & Hatoms & _).
  assert (length (atoms self) = length predictions) as HM
    by (by rewrite Hatoms, length_fmap).
  destruct (save_loop_rounds self target (seq 0 (length (atoms self))) Hwf
              (elem_of_seq_0 _) None l)
    as (rounds & succeeded & Hrun & Hlen & Hne & _ & Hmem & Htwice & Hfail & Hans).
  rewrite length_seq, HM in Hlen, Hfail.
  assert (seq 0 (length (atoms self)) <> []) as Hseq.
  { rewrite HM. destruct (length predictions); [lia | done]. }
  exists rounds, succeeded.
  split; [|split; [|split; [|split; [|split; [|split]]]]]; try done.
  - unfold save. fold target. unfold bind at 1. unfold get_self at 1. simpl.
    unfold bind at 1. rewrite Hrun.
    destruct (seq 0 (length (atoms self))); [done|].
    destruct succeeded; unfold bind, ret, emit, get_self; simpl;
      by rewrite <- ?app_assoc.
  - split; [|done]. specialize (Hne Hseq). destruct rounds; [done | simpl; lia].
  - intros k r Hr. destruct (Hmem k r Hr) as (i & m & Hi & Hm & Hlt & Htext).
    apply lookup_seq in Hi as [-> _]. exists m. by rewrite <- HM.
  - rewrite refine_calls_app.
    pose proof (refine_calls_rounds (F:=F) (Enc:=Enc) target rounds).
    assert (refine_calls
              ((if succeeded then [] else [EvPrint (failed_message target)]) ++
               [EvAddErrors target (confidence self) [header]]) = 0) as ->
      by (by destruct succeeded).
    lia.
Qed.

(** C3. When [refine] answers failure at every call, [save] on a constructed
    object still returns normally: the last thing written to the target is an
    unrefined structure, the last call of [refine] follows it, the warning is
    printed, and the confidence annotation is applied to the target. *)
Theorem save_survives_failed_refinement ns (predictions : list (coords F * Emb))
  (self : Antibody F Emb Label) (filename : option string)
  (l : list (event F Pdb Enc)) :
  Antibody_init ns predictions = Ok self ->
  (forall h input output, refine_outcome h input output = false) ->
  let target := default "ABodyBuilder2_output.pdb" filename in
  exists (earlier : list (event F Pdb Enc)) (text : Pdb) (m : nat),
    unrefined self m = Ok text /\
    save filename (World self l)
    = (Ok tt,
       World self
         (l ++ earlier ++
            [EvWrite target text; EvRefine target target;
             EvPrint (failed_message target);
             EvAddErrors target (confidence self) [header]])).
Proof.
  intros Hinit Hfail target.
  pose proof (Antibody_init_well_formed alignment_ok argsort_ok _ _ _ Hinit) as Hwf.
  destruct (save_run self filename l Hwf) as (rounds & h & Hrun & Hne & _ & Hall).
  fold target in Hrun. rewrite Hfail in Hrun.
  destruct rounds as [|r rounds _] using rev_ind; [done|].
  apply Forall_app in Hall as [_ Hr].
  apply Forall_singleton in Hr as (m & _ & Hm).
  exists (flat_map (round_events target) rounds
          ++ (if r.2 then attempt target r.1 else [])), r.1, m.
  split; [done|].
  rewrite Hrun. do 2 f_equal.
  rewrite flat_map_app. simpl. unfold round_events at 2.
  rewrite app_nil_r. destruct r.2; simpl; by rewrite <- ?app_assoc.
Qed.

End Save.

(** C10. On an object whose list of member coordinates is empty, the loop
    of [save] has no iteration: reading [success] after it raises
    [UnboundLocalError], and nothing was written, refined or annotated. *)
Theorem save_empty_ensemble_unbound {F : Type} `{Scalar F}
  {Pdb Enc Emb Label : Type} {E : External F Pdb Enc Label}
  (self : Antibody F Emb Label) (filename : option string)
  (l : list (event F Pdb Enc)) :
  atoms self = [] ->
  save filename (World self l) = (Raise UnboundLocalError, World self l).
Proof.
  intros Hempty. unfold save, bind, get_self. simpl. by rewrite Hempty.
Qed.

(** ** The object is never assigned to after construction *)

Section Immutable.
Context {F : Type} `{Scalar F} {Pdb Enc Emb Label : Type}.
Context {E : External F Pdb Enc Label}.

Lemma preserves_ret {O A} (a : A) : preserves_obj (F:=F) (Pdb:=Pdb) (Enc:=Enc) (O:=O) (ret a).
Proof. done. Qed.

Lemma preserves_raise {O A} (e : exn) : preserves_obj (F:=F) (Pdb:=Pdb) (Enc:=Enc) (O:=O) (A:=A) (raise e).
Proof. done. Qed.

Lemma preserves_lift {O A} (r : res A) : preserves_obj (F:=F) (Pdb:=Pdb) (Enc:=Enc) (O:=O) (lift r).
Proof. done. Qed.

Lemma preserves_get_self {O} : preserves_obj (F:=F) (Pdb:=Pdb) (Enc:=Enc) (O:=O) get_self.
Proof. done. Qed.

Lemma preserves_emit {O} ev : preserves_obj (F:=F) (Pdb:=Pdb) (Enc:=Enc) (O:=O) (emit ev).
Proof. done. Qed.

Lemma preserves_refine {O} input output :
  preserves_obj (F:=F) (Pdb:=Pdb) (Enc:=Enc) (O:=O) (refine input output).
Proof. done. Qed.

Lemma preserves_bind {O A B} (m : Py (F:=F) (Pdb:=Pdb) (Enc:=Enc) O A)
  (k : A -> Py O B) :
  preserves_obj m -> (forall a, preserves_obj (k a)) -> preserves_obj (bind m k).
Proof.
  intros Hm Hk w. unfold bind. specialize (Hm w).
  destruct (m w) as [[a|e] w']; simpl in *; [|done].
  by rewrite Hk.
Qed.

Create HintDb preserves.
#[local] Hint Resolve preserves_ret preserves_raise preserves_lift
  preserves_get_self preserves_emit preserves_refine : preserves.
#[local] Hint Extern 2 (preserves_obj (bind _ _)) =>
  apply preserves_bind; [|intros ?] : preserves.
#[local] Hint Extern 3 (preserves_obj (if ?b then _ else _)) =>
  destruct b : preserves.

Lemma preserves_save_single_unrefined filename index :
  preserves_obj (F:=F) (Pdb:=Pdb) (Enc:=Enc) (O:=Antibody F Emb Label) (save_single_unrefined filename index).
Proof. unfold save_single_unrefined. auto with preserves. Qed.

Lemma preserves_ranking_index i :
  preserves_obj (F:=F) (Pdb:=Pdb) (Enc:=Enc) (O:=Antibody F Emb Label) (ranking_index i).
Proof. unfold ranking_index. auto with preserves. Qed.

#[local] Hint Resolve preserves_save_single_unrefined preserves_ranking_index
  : preserves.

Lemma preserves_save_all_loop dirname idxs :
  preserves_obj (F:=F) (Pdb:=Pdb) (Enc:=Enc) (O:=Antibody F Emb Label) (save_all_loop dirname idxs).
Proof. induction idxs; simpl; auto with preserves. Qed.

Lemma preserves_save_loop filename idxs success :
  preserves_obj (F:=F) (Pdb:=Pdb) (Enc:=Enc) (O:=Antibody F Emb Label) (save_loop filename idxs success).
Proof.
  revert success. induction idxs; intros success; simpl; auto 10 with preserves.
Qed.

#[local] Hint Resolve preserves_save_all_loop preserves_save_loop : preserves.

Lemma preserves_save filename :
  preserves_obj (F:=F) (Pdb:=Pdb) (Enc:=Enc) (O:=Antibody F Emb Label) (save filename).
Proof.
  unfold save. apply preserves_bind; [auto with preserves|]. intros self.
  apply preserves_bind; [auto with preserves|]. intros [success|];
    auto 10 with preserves.
Qed.

Lemma preserves_save_all dirname filename :
  preserves_obj (F:=F) (Pdb:=Pdb) (Enc:=Enc) (O:=Antibody F Emb Label) (save_all dirname filename).
Proof. unfold save_all. auto 12 with preserves. Qed.

Lemma preserves_run_operation op :
  preserves_obj (F:=F) (Pdb:=Pdb) (Enc:=Enc) (O:=Antibody F Emb Label) (run_operation op).
Proof.
  destruct op; simpl;
    auto using preserves_save, preserves_save_all, preserves_save_single_unrefined.
Qed.

(** C9. The derived fields are set by [__init__] and by nothing else: after
    any sequence of [save], [save_all] and [save_single_unrefined] calls the
    object is the one the sequence started from, so its transforms, aligned
    traces, error estimates and ranking are those computed at construction. *)
Theorem derived_fields_immutable (ops : list operation)
  (self : Antibody F Emb Label) (l : list (event F Pdb Enc)) :
  let self' := obj (run_operations ops (World self l)) in
  self' = self /\
  self_R self' = self_R self /\
  self_t self' = self_t self /\
  aligned_traces self' = aligned_traces self /\
  error_estimates self' = error_estimates self /\
  ranking self' = ranking self.
Proof.
  assert (forall w : world (Antibody F Emb Label),
            obj (run_operations ops w) = obj w) as Hobj.
  { induction ops as [|op ops IH]; intros w; simpl; [done|].
    by rewrite IH, preserves_run_operation. }
  intros self'. subst self'. rewrite Hobj. simpl. done.
Qed.

End Immutable.

(** ** [save_all]: the directory mode *)

Lemma list_ascii_of_string_app (s1 s2 : string) :
  list_ascii_of_string (s1 +:+ s2)
  = list_ascii_of_string s1 ++ list_ascii_of_string s2.
Proof. induction s1 as [|c s1 IH]; simpl; [done | by rewrite IH]. Qed.

Lemma string_app_inv_tail (s1 s2 s : string) :
  s1 +:+ s = s2 +:+ s -> s1 = s2.
Proof.
  intros Heq. apply (f_equal list_ascii_of_string) in Heq.
  rewrite !list_ascii_of_string_app in Heq.
  apply app_inv_tail in Heq.
  rewrite <- (string_of_list_ascii_of_string s1),
    <- (string_of_list_ascii_of_string s2).
  by rewrite Heq.
Qed.

Lemma rank_filename_inj : Inj (=) (=) rank_filename.
Proof.
  intros k1 k2 Heq. unfold rank_filename in Heq.
  apply (inj (String.app "rank")) in Heq.
  apply string_app_inv_tail in Heq.
  by apply (inj pretty) in Heq.
Qed.

(** The rank-labelled files of one directory are distinct files. *)
Lemma rank_path_inj (dirname : string) :
  Inj (=) (=) (fun k => path_join dirname (rank_filename k)).
Proof.
  intros k1 k2. unfold path_join.
  assert (forall k, String.prefix "/" (rank_filename k) = false) as Hrel by done.
  rewrite !Hrel.
  destruct (bool_decide (dirname = "") || ends_with_sep dirname); intros Heq.
  - apply (inj (String.app dirname)) in Heq. by apply rank_filename_inj.
  - apply (inj (String.app dirname)) in Heq.
    apply (inj (String.app "/")) in Heq. by apply rank_filename_inj.
Qed.

Section SaveAll.
Context {F : Type} `{Scalar F} {Pdb Enc Emb Label : Type}.
Context {E : External F Pdb Enc Label}.

Lemma save_all_loop_run (self : Antibody F Emb Label) (dirname : string)
  (idxs : list nat) :
  well_formed self ->
  (forall i, i ∈ idxs -> i < length (atoms self)) ->
  forall l : list (event F Pdb Enc),
  exists files : list (nat * Pdb),
    Forall2 (ranked_as self) idxs files /\
    save_all_loop dirname idxs (World self l)
    = (Ok tt, World self (l ++ (unrefined_file dirname <$> files))).
Proof.
  intros Hwf. induction idxs as [|i rest IH]; intros Hidx l.
  - exists []. split; [constructor|]. simpl. by rewrite app_nil_r.
  - destruct (ranking_index_member self Hwf i) as (k & Hk & Hki & _).
    { apply Hidx. by left. }
    destruct (unrefined_member self Hwf i) as [text Htext].
    { apply Hidx. by left. }
    destruct (IH (fun j Hj => Hidx j (list_elem_of_further _ _ _ Hj))
                (l ++ [EvWrite (path_join dirname (rank_filename k)) text]))
      as (files & Hfiles & Hrun).
    exists ((k, text) :: files). split; [by constructor|].
    simpl. unfold bind at 1. rewrite (ranking_index_run self i k l Hk).
    unfold bind at 1.
    rewrite (save_single_unrefined_run self _ i text l Htext).
    rewrite Hrun. by rewrite <- app_assoc.
Qed.

Lemma ranked_files_NoDup (self : Antibody F Emb Label) (n : nat)
  (files : list (nat * Pdb)) :
  Forall2 (ranked_as self) (seq 0 n) files -> NoDup files.*1.
Proof.
  intros Hfiles. apply NoDup_alt. intros p q k Hp Hq.
  rewrite list_lookup_fmap in Hp, Hq.
  destruct (files !! p) as [fp|] eqn:Hfp; [|done].
  destruct (files !! q) as [fq|] eqn:Hfq; [|done].
  simpl in Hp, Hq. injection Hp as Hp. injection Hq as Hq.
  destruct (Forall2_lookup_r _ _ _ _ _ Hfiles Hfp) as (i & Hi & Hri & _).
  destruct (Forall2_lookup_r _ _ _ _ _ Hfiles Hfq) as (j & Hj & Hrj & _).
  rewrite Hp in Hri. rewrite Hq in Hrj.
  assert (i = j) as <- by congruence.
  apply lookup_seq in Hi as [Hi _]. apply lookup_seq in Hj as [Hj _]. lia.
Qed.

Hypothesis alignment_ok : alignment_contract find_alignment_transform.
Hypothesis argsort_ok : argsort_contract argsort.

(** C7. [save_all] on an object of [M] members writes [M] unrefined files,
    member [i] to the file labelled with the position of [i] in the ranking,
    all with different names; then the per-residue mean error array; then it
    calls [refine] once, from the rank-0 file, which holds the member at the
    head of the ranking, into the final file name; then it annotates the
    final file with the per-residue confidence, whatever [refine] answered. *)
Theorem save_all_outputs ns (predictions : list (coords F * Emb))
  (self : Antibody F Emb Label) (dirname filename : option string)
  (l : list (event F Pdb Enc)) :
  Antibody_init ns predictions = Ok self ->
  let dir := default "ABodyBuilder2_output" dirname in
  let final := path_join dir (default "final_model.pdb" filename) in
  exists files : list (nat * Pdb),
    length files = length predictions /\
    Forall2 (ranked_as self) (seq 0 (length predictions)) files /\
    NoDup ((fun file => path_join dir (rank_filename file.1)) <$> files) /\
    (exists best text,
        ranking self !! 0 = Some best /\ files !! best = Some (0, text)) /\
    save_all dirname filename (World self l)
    = (Ok tt,
       World self
         (l ++ [EvMakedirs dir]
            ++ (unrefined_file dir <$> files)
            ++ [EvNpSave (path_join dir "error_estimates")
                  (fmean0 (error_estimates self));
                EvRefine (path_join dir "rank0_unrefined.pdb") final;
                EvAddErrors final (confidence self) [header]])).
Proof.
  intros Hinit dir final.
  pose proof (Antibody_init_well_formed alignment_ok argsort_ok _ _ _ Hinit) as Hwf.
  apply Antibody_init_Ok in Hinit as (_ & _ & _ & _ & Hatoms & _).
  assert (length (atoms self) = length predictions) as Hlen
    by (by rewrite Hatoms, length_fmap).
  destruct (save_all_loop_run self dir (seq 0 (length (atoms self))) Hwf
              (elem_of_seq_0 _) (l ++ [EvMakedirs dir]))
    as (files & Hfiles & Hrun).
  rewrite Hlen in Hfiles.
  pose proof (ranked_files_NoDup self _ files Hfiles) as Hnd.
  exists files. split; [|split; [done|split; [|split]]].
  - apply Forall2_length in Hfiles. by rewrite length_seq in Hfiles.
  - assert (((fun file : nat * Pdb => path_join dir (rank_filename file.1)) <$> files)
            = (fun k => path_join dir (rank_filename k)) <$> files.*1) as ->
      by (by rewrite <- list_fmap_compose).
    apply NoDup_fmap_2; [apply rank_path_inj | done].
  - destruct Hwf as (Hpos & _ & _ & Hperm).
    destruct (lookup_lt_is_Some_2 (ranking self) 0) as [best Hbest].
    { rewrite Hperm, length_seq. lia. }
    assert (best < length predictions) as Hb.
    { apply list_elem_of_lookup_2 in Hbest. rewrite Hperm in Hbest.
      apply elem_of_seq in Hbest. lia. }
    destruct (Forall2_lookup_l _ _ _ best best Hfiles) as ([k text] & Hf & Hr & _).
    { by apply lookup_seq. }
    exists best, text. split; [done|]. rewrite Hf. do 2 f_equal.
    simpl in Hr.
    assert (NoDup (ranking self)) as Hrnd by (rewrite Hperm; apply NoDup_seq).
    by eapply NoDup_lookup.
  - unfold save_all. fold dir. unfold bind at 1, emit at 1. simpl.
    unfold bind at 1, get_self at 1. simpl.
    unfold bind at 1. rewrite Hrun.
    unfold bind, get_self, emit, refine. simpl.
    by rewrite <- ?app_assoc.
Qed.

End SaveAll.

(** ** [predict] *)

Section Predict.
Context {F : Type} `{Scalar F} {Pdb Enc Emb Label : Type}.
Context {E : External F Pdb Enc Label}.

Lemma dict_get_fmap {V W} (f : V -> W) (d : dict V) (key : string) :
  dict_get ((fun entry => (entry.1, f entry.2)) <$> d) key
  = res_bind (dict_get d key) (fun v => Ok (f v)).
Proof.
  induction d as [|[k v] d IH]; simpl; [done|].
  by case_bool_decide.
Qed.

(** C6, as the code has it.  [predict] has no check of its own: it calls
    [number_sequences] and [get_encoding] first.  When the numbering it got
    back has no chain "H" or no chain "L", building the full sequence raises
    [KeyError], after these two calls and before any model is run. *)
Theorem predict_missing_chain (self : ABodyBuilder2 F Enc Emb)
  (sequence_dict : dict string) (l : list (event F Pdb Enc)) :
  let numbering : numbered Label := number_sequences sequence_dict in
  let sequences :=
    (fun entry => (entry.1, str_join entry.2.*2)) <$> numbering in
  dict_get numbering "H" = Raise (KeyError "H") \/
  dict_get numbering "L" = Raise (KeyError "L") ->
  exists key,
    (key = "H" \/ key = "L") /\
    predict sequence_dict (World self l)
    = (Raise (KeyError key),
       World self (l ++ [EvNumber sequence_dict; EvEncoding sequences])).
Proof.
  intros numbering sequences Hmissing.
  assert (forall key, dict_get sequences key
                      = res_bind (dict_get numbering key)
                          (fun v => Ok (str_join v.*2))) as Hget.
  { intros key. unfold sequences.
    apply (dict_get_fmap (fun v : list (Label * string) => str_join v.*2)). }
  unfold predict. fold numbering. fold sequences.
  unfold bind, emit, lift, get_self. simpl. rewrite <- app_assoc. simpl.
  rewrite !Hget.
  destruct (dict_get numbering "H") as [h|e] eqn:HH; simpl.
  - destruct Hmissing as [?|HL]; [done|]. rewrite HL. simpl.
    exists "L". split; [by right | done].
  - destruct Hmissing as [[= ->]|HL].
    + exists "H". split; [by left | done].
    + assert (e = KeyError "H") as ->.
      { clear -HH. induction numbering as [|[k v] d IH]; simpl in HH.
        - by injection HH.
        - case_bool_decide; [done | by apply IH]. }
      exists "H". split; [by left | done].
Qed.

End Predict.

(** ** The error estimate and the ranking as functions of the predictions *)

Section Estimates.
Context {F : Type} `{Scalar F} {Pdb Enc Emb Label : Type}.
Context {E : External F Pdb Enc Label}.

Lemma res_mapM_Ok_iff {A B} (f : A -> res B) (l : list A) (l' : list B) :
  res_mapM f l = Ok l' <-> Forall2 (fun x y => f x = Ok y) l l'.
Proof.
  revert l'. induction l as [|x l IH]; intros l'; simpl.
  - split; [by intros [= <-]; constructor | by intros ->%Forall2_nil_inv_l].
  - split.
    + destruct (f x) as [y|] eqn:Hy; simpl; [|done].
      destruct (res_mapM f l) as [ys|]; simpl; [|done].
      intros [= <-]. constructor; [done | by apply IH].
    + intros (y & ys & Hy & Hys & ->)%Forall2_cons_inv_l.
      rewrite Hy. simpl. apply IH in Hys. by rewrite Hys.
Qed.

Lemma trace_of_Ok_iff (x : coords F) (tr : list (vec3 F)) :
  trace_of x = Ok tr <-> backbone_of x tr.
Proof.
  unfold trace_of, backbone_of. rewrite res_mapM_Ok_iff.
  split; intros Hall; (eapply Forall2_impl; [exact Hall|]); intros residue p;
    unfold of_option; destruct (residue !! 0) as [?|]; intros; by simplify_eq.
Qed.

Lemma traces_Ok_iff (xs : list (coords F)) (traces : list (list (vec3 F))) :
  res_mapM trace_of xs = Ok traces <-> Forall2 backbone_of xs traces.
Proof.
  rewrite res_mapM_Ok_iff.
  split; intros Hall; (eapply Forall2_impl; [exact Hall|]); intros x tr;
    apply trace_of_Ok_iff.
Qed.

(** C8, as the code has it.  The error estimate is computed from the
    backbone traces alone: atom 0 of every residue is taken, each member's
    transform is applied to its trace, and the error of a residue in a member
    is the squared distance of its aligned trace point from the cross-member
    mean of the aligned trace points.  The other atoms do not enter: two
    ensembles with the same traces have the same error estimates.  The
    confidence is the square root of the cross-member mean of the error. *)
Theorem error_estimates_from_backbone ns (predictions : list (coords F * Emb))
  (self : Antibody F Emb Label) :
  Antibody_init ns predictions = Ok self ->
  exists traces : list (list (vec3 F)),
    Forall2 backbone_of (atoms self) traces /\
    (forall m tr Rm tm,
        traces !! m = Some tr ->
        self_R self !! m = Some Rm -> self_t self !! m = Some tm ->
        aligned_traces self !! m = Some (transform Rm tm <$> tr)) /\
    (forall m r tr p c,
        aligned_traces self !! m = Some tr -> tr !! r = Some p ->
        vmean0 (aligned_traces self) !! r = Some c ->
        exists row, error_estimates self !! m = Some row /\
                    row !! r = Some (sqnorm (vsub p c))) /\
    confidence self = fsqrt <$> fmean0 (error_estimates self) /\
    (forall ns' (predictions' : list (coords F * Emb)) self',
        Antibody_init ns' predictions' = Ok self' ->
        Forall2 backbone_of (atoms self') traces ->
        error_estimates self' = error_estimates self /\
        confidence self' = confidence self).
Proof.
  intros Hinit.
  apply Antibody_init_Ok in Hinit
    as (traces & Htr & _ & _ & Hatoms & _ & HR & Ht & Hal & Herr & _).
  exists traces. split; [|split; [|split; [|split]]].
  - rewrite Hatoms. by apply traces_Ok_iff.
  - intros m tr Rm tm Hm HRm Htm.
    rewrite Hal. unfold align. rewrite lookup_zip_with, Hm. simpl.
    assert (zip (self_R self) (self_t self) !! m = Some (Rm, tm)) as ->
      by (by apply lookup_zip_Some).
    done.
  - intros m r tr p c Hm Hr Hc.
    rewrite Herr. unfold deviations. rewrite list_lookup_fmap, Hm. simpl.
    eexists. split; [done|].
    by rewrite lookup_zip_with, Hr, Hc.
  - done.
  - intros ns' predictions' self' Hinit' Hsame.
    apply Antibody_init_Ok in Hinit'
      as (traces' & Htr' & _ & _ & Hatoms' & _ & HR' & Ht' & Hal' & Herr' & _).
    rewrite Hatoms' in Hsame. apply traces_Ok_iff in Hsame.
    assert (traces' = traces) as -> by congruence.
    assert (error_estimates self' = error_estimates self) as Heq.
    { rewrite Herr', Herr, Hal', Hal, HR', HR, Ht', Ht. done. }
    split; [done|]. unfold confidence. by rewrite Heq.
Qed.

End Estimates.

(** ** The claims on concrete ensembles *)

Lemma three_members_init :
  exists self,
    Antibody_init (E:=demo_failing) demo_numbering three_members = Ok self.
Proof. eexists. vm_compute. reflexivity. Defined.

Lemma ranking_sorted_permutation_witness :
  exists self,
    Antibody_init (E:=demo_failing) demo_numbering three_members = Ok self /\
    ranking self = [1; 2; 0] /\
    ranking self ≡ₚ seq 0 3.
Proof.
  eexists. split; [vm_compute; reflexivity|]. split; [reflexivity|].
  eapply (ranking_sorted_permutation (E:=demo_failing)
            identity_alignment_contract argsort_ties_first_contract
            demo_numbering three_members).
  vm_compute. reflexivity.
Defined.

Lemma save_refine_calls_bounded_witness :
  exists self rounds (succeeded : bool),
    Antibody_init (E:=demo_failing) demo_numbering three_members = Ok self /\
    save (E:=demo_failing) None (World self [])
    = (Ok tt,
       World self
         (flat_map (round_events "ABodyBuilder2_output.pdb") rounds
            ++ (if succeeded then []
                else [EvPrint (failed_message "ABodyBuilder2_output.pdb")])
            ++ [EvAddErrors "ABodyBuilder2_output.pdb"
                  (confidence self) [header]])) /\
    0 < length rounds <= 3 /\
    refine_calls (F:=Q) (Pdb:=demo_pdb) (Enc:=dict string)
      (flat_map (round_events "ABodyBuilder2_output.pdb") rounds
         ++ (if succeeded then []
             else [EvPrint (failed_message "ABodyBuilder2_output.pdb")])
         ++ [EvAddErrors "ABodyBuilder2_output.pdb" (confidence self) [header]])
    <= 2 * 3.
Proof.
  destruct three_members_init as [self Hinit].
  destruct (save_refine_calls_bounded (E:=demo_failing)
              identity_alignment_contract argsort_ties_first_contract
              demo_numbering three_members self None [] Hinit)
    as (rounds & succeeded & Hrun & Hlen & _ & _ & _ & _ & Hcalls).
  exists self, rounds, succeeded.
  split; [exact Hinit|]. split; [exact Hrun|]. split; [exact Hlen | exact Hcalls].
Defined.

(** C1 as the document states it fails: with three members and a [refine]
    that always fails, [save] calls [refine] six times, and it hands over the
    structures of three different members, two attempts each. *)
Lemma save_falls_through_to_other_members :
  exists self w u0 u1 u2,
    Antibody_init (E:=demo_failing) demo_numbering three_members = Ok self /\
    save (E:=demo_failing) None (World self []) = (Ok tt, w) /\
    refine_calls (log w) = 6 /\
    unrefined (E:=demo_failing) self 0 = Ok u0 /\
    unrefined (E:=demo_failing) self 1 = Ok u1 /\
    unrefined (E:=demo_failing) self 2 = Ok u2 /\
    (written (log w)).*2 = [u2; u2; u0; u0; u1; u1] /\
    u2 <> u0 /\ u0 <> u1.
Proof.
  eexists _, _, _, _, _.
  split; [vm_compute; reflexivity|].
  split; [vm_compute; reflexivity|].
  split; [vm_compute; reflexivity|].
  split; [vm_compute; reflexivity|].
  split; [vm_compute; reflexivity|].
  split; [vm_compute; reflexivity|].
  split; [vm_compute; reflexivity|].
  split; discriminate.
Qed.

(** C2 fails on the code.  On an ensemble ranked [[1; 2; 0]] the top member
    is member 1, and the first (here the only) structure [save] writes and
    refines is that of member 2: the loop passes [self.ranking.index(0)], the
    rank position of member 0, where a member index is expected. *)
Theorem save_first_writes_rank_position_member :
  exists self w u1 u2,
    Antibody_init (E:=demo_succeeding) demo_numbering three_members = Ok self /\
    ranking self = [1; 2; 0] /\
    ranking self !! 0 = Some 1 /\
    list_index 0 (ranking self) = Some 2 /\
    unrefined (E:=demo_succeeding) self 1 = Ok u1 /\
    unrefined (E:=demo_succeeding) self 2 = Ok u2 /\
    save (E:=demo_succeeding) None (World self []) = (Ok tt, w) /\
    log w = [EvWrite "ABodyBuilder2_output.pdb" u2;
             EvRefine "ABodyBuilder2_output.pdb" "ABodyBuilder2_output.pdb";
             EvAddErrors "ABodyBuilder2_output.pdb" (confidence self) [header]] /\
    u2 <> u1.
Proof.
  eexists _, _, _, _.
  split; [vm_compute; reflexivity|].
  split; [vm_compute; reflexivity|].
  split; [vm_compute; reflexivity|].
  split; [vm_compute; reflexivity|].
  split; [vm_compute; reflexivity|].
  split; [vm_compute; reflexivity|].
  split; [vm_compute; reflexivity|].
  split; [vm_compute; reflexivity | discriminate].
Qed.

Lemma save_survives_failed_refinement_witness :
  exists self earlier text m,
    Antibody_init (E:=demo_failing) demo_numbering three_members = Ok self /\
    unrefined (E:=demo_failing) self m = Ok text /\
    save (E:=demo_failing) None (World self [])
    = (Ok tt,
       World self
         (earlier ++
            [EvWrite "ABodyBuilder2_output.pdb" text;
             EvRefine "ABodyBuilder2_output.pdb" "ABodyBuilder2_output.pdb";
             EvPrint (failed_message "ABodyBuilder2_output.pdb");
             EvAddErrors "ABodyBuilder2_output.pdb"
               (confidence self) [header]])).
Proof.
  destruct three_members_init as [self Hinit].
  destruct (save_survives_failed_refinement (E:=demo_failing)
              identity_alignment_contract argsort_ties_first_contract
              demo_numbering three_members self None [] Hinit
              (fun _ _ _ => eq_refl))
    as (earlier & text & m & Htext & Hrun).
  exists self, earlier, text, m.
  split; [exact Hinit|]. split; [exact Htext | exact Hrun].
Defined.

(** C6 as the document states it fails: on an input without chain "L" the
    numbering and the encoding collaborators have both been called when
    [predict] raises. *)
Lemma predict_calls_collaborators_first :
  predict (E:=demo_failing) [("H", "EVQ")] (World demo_builder [])
  = (Raise (KeyError "L"),
     World demo_builder
       [EvNumber [("H", "EVQ")]; EvEncoding [("H", "EVQ")]]).
Proof. vm_compute. reflexivity. Qed.

Lemma predict_missing_chain_witness :
  exists key,
    (key = "H" \/ key = "L") /\
    predict (E:=demo_failing) [("H", "EVQ")] (World demo_builder [])
    = (Raise (KeyError key),
       World demo_builder
         [EvNumber [("H", "EVQ")]; EvEncoding [("H", "EVQ")]]).
Proof.
  apply (predict_missing_chain (E:=demo_failing) demo_builder [("H", "EVQ")] []).
  right. vm_compute. reflexivity.
Defined.

Lemma save_all_outputs_witness :
  exists self files,
    Antibody_init (E:=demo_failing) demo_numbering three_members = Ok self /\
    length files = 3 /\
    save_all (E:=demo_failing) (Some "out") None (World self [])
    = (Ok tt,
       World self
         ([EvMakedirs "out"]
            ++ (unrefined_file "out" <$> files)
            ++ [EvNpSave "out/error_estimates" (fmean0 (error_estimates self));
                EvRefine "out/rank0_unrefined.pdb" "out/final_model.pdb";
                EvAddErrors "out/final_model.pdb" (confidence self) [header]])).
Proof.
  destruct three_members_init as [self Hinit].
  destruct (save_all_outputs (E:=demo_failing)
              identity_alignment_contract argsort_ties_first_contract
              demo_numbering three_members self (Some "out") None [] Hinit)
    as (files & Hlen & _ & _ & _ & Hrun).
  exists self, files. split; [exact Hinit|]. split; [exact Hlen | exact Hrun].
Defined.

(** C8 as the document states it fails: two members with the same backbone
    trace and different second atoms have error estimate zero, while the
    squared distance over their full atom sets is one. *)
Lemma error_estimates_ignore_other_atoms :
  exists self,
    Antibody_init (E:=demo_failing) demo_numbering side_chain_members = Ok self /\
    error_estimates self = [[0%Q]; [0%Q]] /\
    spec_full_atom_error
      (spec_align_full_atoms (atoms self) (self_R self) (self_t self))
    = [[1%Q]; [1%Q]].
Proof.
  eexists. split; [vm_compute; reflexivity|].
  split; vm_compute; reflexivity.
Qed.

Lemma error_estimates_from_backbone_witness :
  exists self self',
    Antibody_init (E:=demo_failing) demo_numbering side_chain_members = Ok self /\
    Antibody_init (E:=demo_failing) demo_numbering twin_members = Ok self' /\
    error_estimates self' = error_estimates self.
Proof.
  assert (exists self,
             Antibody_init (E:=demo_failing) demo_numbering side_chain_members
             = Ok self) as [self Hinit] by (eexists; vm_compute; reflexivity).
  assert (exists self',
             Antibody_init (E:=demo_failing) demo_numbering twin_members
             = Ok self') as [self' Hinit'] by (eexists; vm_compute; reflexivity).
  exists self, self'. split; [exact Hinit|]. split; [exact Hinit'|].
  destruct (error_estimates_from_backbone (E:=demo_failing)
              demo_numbering side_chain_members self Hinit)
    as (traces & Hbackbone & _ & _ & _ & Hsame).
  apply (Hsame demo_numbering twin_members self' Hinit').
  apply traces_Ok_iff. apply traces_Ok_iff in Hbackbone.
  rewrite <- Hbackbone.
  injection Hinit as <-. injection Hinit' as <-. vm_compute. reflexivity.
Defined.

Lemma save_empty_ensemble_unbound_witness :
  save (E:=demo_failing) None (World empty_antibody [])
  = (Raise UnboundLocalError, World empty_antibody []).
Proof.
  apply (save_empty_ensemble_unbound (E:=demo_failing)). reflexivity.
Defined.

(** * Further properties of the code *)

(** ** When [__init__] succeeds, and the shapes it leaves *)

Section ConstructionEdges.
Context {F : Type} `{Scalar F} {Pdb Enc Emb Label : Type}.
Context {E : External F Pdb Enc Label}.

Lemma trace_of_Ok_nonempty (x : coords F) :
  (exists tr, trace_of x = Ok tr) <-> Forall (fun residue => residue <> []) x.
Proof.
  split.
  - intros [tr Htr]. apply trace_of_Ok_iff in Htr.
    induction Htr as [|residue p x tr Hp _ IH]; constructor; [|done].
    by destruct residue.
  - induction 1 as [|residue x Hne _ [tr IH]].
    + by exists [].
    + destruct residue as [|p residue]; [done|].
      exists (p :: tr). apply trace_of_Ok_iff. constructor; [done|].
      by apply trace_of_Ok_iff.
Qed.

Lemma trace_of_Raise (x : coords F) e : trace_of x = Raise e -> e = IndexError.
Proof.
  unfold trace_of. induction x as [|residue x IH]; simpl; [done|].
  destruct residue as [|p residue]; simpl; [by intros [= <-]|].
  destruct (res_mapM _ x); simpl; [done|]. intros [= <-]. by apply IH.
Qed.

Lemma traces_Raise (xs : list (coords F)) e :
  res_mapM trace_of xs = Raise e -> e = IndexError.
Proof.
  induction xs as [|x xs IH]; simpl; [done|].
  destruct (trace_of x) eqn:Hx; simpl; [|intros [= <-]; by eapply trace_of_Raise].
  destruct (res_mapM trace_of xs); simpl; [done|]. intros [= <-]. by apply IH.
Qed.

Lemma traces_Ok_nonempty (xs : list (coords F)) :
  (exists rows, res_mapM trace_of xs = Ok rows)
  <-> Forall (Forall (fun residue => residue <> [])) xs.
Proof.
  split.
  - intros [rows Hrows]. apply traces_Ok_iff in Hrows.
    induction Hrows as [|x tr xs rows Hx _ IH]; constructor; [|done].
    apply trace_of_Ok_nonempty. exists tr. by apply trace_of_Ok_iff.
  - induction 1 as [|x xs Hx _ [rows IH]].
    + by exists [].
    + apply trace_of_Ok_nonempty in Hx as [tr Htr].
      exists (tr :: rows). simpl. by rewrite Htr, IH.
Qed.

Lemma forallb_size {A} (n : nat) (xs : list (list A)) :
  forallb (fun y => Nat.eqb (length y) n) xs = true
  <-> Forall (fun y => length y = n) xs.
Proof.
  induction xs as [|y xs IH]; simpl; [by split|].
  rewrite andb_true_iff, Forall_cons, Nat.eqb_eq, IH. done.
Qed.

Lemma stack_Ok_iff (rows : list (list (vec3 F))) :
  stack rows = Ok rows <->
  rows <> [] /\ Forall (fun tr => length tr = first_size rows) rows.
Proof.
  unfold stack. destruct rows as [|x xs]; [split; [done | by intros []]|].
  simpl. rewrite Forall_cons.
  destruct (forallb _ xs) eqn:Hall.
  - apply forallb_size in Hall. by split.
  - split; [done|]. intros (_ & _ & Hsame%forallb_size). congruence.
Qed.

Lemma stack_cases (rows : list (list (vec3 F))) :
  stack rows = Ok rows \/ stack rows = Raise RuntimeError.
Proof.
  unfold stack. destruct rows as [|x xs]; [by right|].
  destruct (forallb _ xs); [by left | by right].
Qed.

Lemma traces_sizes (xs : list (coords F)) (rows : list (list (vec3 F))) :
  res_mapM trace_of xs = Ok rows ->
  length <$> rows = length <$> xs.
Proof.
  intros Hrows%traces_Ok_iff.
  induction Hrows as [|x tr xs rows Hx _ IH]; simpl; [done|].
  f_equal; [|done]. symmetry. by eapply Forall2_length.
Qed.

Lemma first_size_fmap (xs : list (coords F)) (rows : list (list (vec3 F))) :
  length <$> rows = length <$> xs -> first_size rows = first_size xs.
Proof. destruct xs, rows; simpl; intros; by simplify_eq. Qed.

Lemma Forall_size_fmap {A B} (l : list (list A)) (k : list (list B)) (n : nat) :
  length <$> l = length <$> k ->
  Forall (fun x => length x = n) l <-> Forall (fun y => length y = n) k.
Proof.
  revert k. induction l as [|x l IH]; intros [|y k]; simpl; intros Heq;
    simplify_eq; [done|].
  rewrite !Forall_cons. rewrite (IH k) by done. by rewrite H0.
Qed.

Lemma stack_traces_Ok_iff (predictions : list (coords F * Emb))
  (rows : list (list (vec3 F))) :
  res_mapM trace_of predictions.*1 = Ok rows ->
  stack rows = Ok rows <->
  predictions <> [] /\
  Forall (fun x => length x = first_size predictions.*1) predictions.*1.
Proof.
  intros Hrows. rewrite stack_Ok_iff.
  pose proof (traces_sizes _ _ Hrows) as Hsizes.
  rewrite (first_size_fmap _ _ Hsizes).
  rewrite (Forall_size_fmap _ _ _ Hsizes).
  assert (rows <> [] <-> predictions <> []) as ->; [|done].
  apply res_mapM_length in Hrows. rewrite length_fmap in Hrows.
  destruct rows, predictions; simpl in Hrows; by simplify_eq.
Qed.

Lemma Antibody_init_Ok_sizes ns (predictions : list (coords F * Emb)) self :
  Antibody_init ns predictions = Ok self ->
  predictions <> [] /\
  Forall (Forall (fun residue => residue <> [])) predictions.*1 /\
  Forall (fun x => length x = first_size predictions.*1) predictions.*1.
Proof.
  unfold Antibody_init. intros Hinit.
  destruct (res_mapM trace_of predictions.*1) as [rows|] eqn:Hrows; [|done].
  simpl in Hinit.
  destruct (stack_cases rows) as [Hs|Hs]; rewrite Hs in Hinit; [|done].
  apply (stack_traces_Ok_iff _ rows Hrows) in Hs as [Hne Hsame].
  split; [done|]. split; [|done].
  apply traces_Ok_nonempty. by eexists.
Qed.

(** [__init__] succeeds exactly on a non-empty list of predictions in which
    every residue has an atom 0 and every member has as many residues as the
    first.  A residue without atoms raises [IndexError], whatever else is
    wrong; with atoms everywhere, no member or members of different sizes
    raise [RuntimeError]. *)
Theorem Antibody_init_succeeds_iff ns (predictions : list (coords F * Emb)) :
  ((exists self, Antibody_init ns predictions = Ok self) <->
   predictions <> [] /\
   Forall (Forall (fun residue => residue <> [])) predictions.*1 /\
   Forall (fun x => length x = first_size predictions.*1) predictions.*1) /\
  (Exists (Exists (fun residue => residue = [])) predictions.*1 ->
   Antibody_init ns predictions = Raise IndexError) /\
  (Forall (Forall (fun residue => residue <> [])) predictions.*1 ->
   predictions = [] \/
   Exists (fun x => length x <> first_size predictions.*1) predictions.*1 ->
   Antibody_init ns predictions = Raise RuntimeError).
Proof.
  pose proof (stack_traces_Ok_iff predictions) as Hok.
  split; [|split].
  - split.
    + intros [self Hinit]. by eapply Antibody_init_Ok_sizes.
    + unfold Antibody_init. intros (Hne & Hatoms & Hsame).
      apply traces_Ok_nonempty in Hatoms as [rows Hrows]. rewrite Hrows. simpl.
      assert (stack rows = Ok rows) as -> by (by apply (Hok rows Hrows)).
      simpl. by eexists.
  - intros Hempty. unfold Antibody_init.
    destruct (res_mapM trace_of predictions.*1) as [rows|e] eqn:Hrows; simpl.
    + exfalso. assert (exists r, res_mapM trace_of predictions.*1 = Ok r) as Hex
        by eauto.
      apply traces_Ok_nonempty in Hex.
      apply Exists_exists in Hempty as (x & Hx & Hres).
      rewrite Forall_forall in Hex. specialize (Hex x Hx).
      apply Exists_exists in Hres as (residue & Hr & ->).
      rewrite Forall_forall in Hex. by apply (Hex [] Hr).
    + by apply traces_Raise in Hrows as ->.
  - intros Hatoms Hbad. unfold Antibody_init.
    apply traces_Ok_nonempty in Hatoms as [rows Hrows]. rewrite Hrows. simpl.
    destruct (stack_cases rows) as [Hs|Hs]; rewrite Hs; [|done].
    exfalso. apply (Hok rows Hrows) in Hs as [Hne Hsame].
    destruct Hbad as [->|Hdiff]; [done|].
    apply Exists_exists in Hdiff as (x & Hx & Hlen).
    rewrite Forall_forall in Hsame. by apply Hlen, Hsame.
Qed.

End ConstructionEdges.

Section Shapes.
Context {F : Type} `{Scalar F} {Pdb Enc Emb Label : Type}.
Context {E : External F Pdb Enc Label}.

Lemma foldl_zip_with_length {A} (f : A -> A -> A) (xs : list (list A))
  (x : list A) (n : nat) :
  length x = n -> Forall (fun y => length y = n) xs ->
  length (foldl (zip_with f) x xs) = n.
Proof.
  revert x. induction xs as [|y xs IH]; intros x Hx Hxs; simpl; [done|].
  apply Forall_cons in Hxs as [Hy Hxs].
  apply IH; [|done]. rewrite length_zip_with. lia.
Qed.

Lemma vmean0_length (rows : list (list (vec3 F))) (n : nat) :
  rows <> [] -> Forall (fun tr => length tr = n) rows ->
  length (vmean0 rows) = n.
Proof.
  intros Hne Hall. unfold vmean0, vsum0. rewrite length_fmap.
  destruct rows as [|x xs]; [done|].
  apply Forall_cons in Hall as [Hx Hxs]. by apply foldl_zip_with_length.
Qed.

Lemma fmean0_length (rows : list (list F)) (n : nat) :
  rows <> [] -> Forall (fun row => length row = n) rows ->
  length (fmean0 rows) = n.
Proof.
  intros Hne Hall. unfold fmean0, fsum0. rewrite length_fmap.
  destruct rows as [|x xs]; [done|].
  apply Forall_cons in Hall as [Hx Hxs]. by apply foldl_zip_with_length.
Qed.

Lemma align_sizes (traces : list (list (vec3 F))) R t (n : nat) :
  Forall (fun tr => length tr = n) traces ->
  Forall (fun tr => length tr = n) (align traces R t).
Proof.
  intros Hall. apply Forall_forall. intros row Hrow.
  apply elem_of_lookup_zip_with in Hrow as (m & tr & Rt & -> & Htr & _).
  rewrite length_fmap. rewrite Forall_forall in Hall.
  apply Hall. by eapply list_elem_of_lookup_2.
Qed.

Lemma deviations_sizes (aligned : list (list (vec3 F))) (n : nat) :
  Forall (fun tr => length tr = n) aligned ->
  Forall (fun row => length row = n) (deviations aligned).
Proof.
  intros Hall. unfold deviations. apply Forall_fmap.
  destruct (decide (aligned = [])) as [->|Hne]; [constructor|].
  pose proof (vmean0_length aligned n Hne Hall) as Hmean.
  eapply Forall_impl; [exact Hall|]. simpl. intros tr Htr.
  rewrite length_zip_with. lia.
Qed.

Hypothesis alignment_ok : alignment_contract find_alignment_transform.

(** A constructed object is rectangular: with [M] members of [N] residues
    each, the aligned traces and the error estimates are [M] rows of [N]
    entries, and the confidence has one entry for each residue. *)
Theorem constructed_shapes ns (predictions : list (coords F * Emb))
  (self : Antibody F Emb Label) :
  Antibody_init ns predictions = Ok self ->
  let N := first_size (atoms self) in
  length (atoms self) = length predictions /\
  Forall (fun x => length x = N) (atoms self) /\
  length (aligned_traces self) = length predictions /\
  Forall (fun tr => length tr = N) (aligned_traces self) /\
  length (error_estimates self) = length predictions /\
  Forall (fun row => length row = N) (error_estimates self) /\
  length (confidence self) = N.
Proof.
  intros Hinit N.
  pose proof (Antibody_init_Ok_sizes _ _ _ Hinit) as (Hne & _ & Hsame).
  apply Antibody_init_Ok in Hinit
    as (traces & Htr & Hpos & _ & Hatoms & _ & HR & Ht & Hal & Herr & _).
  pose proof (traces_sizes _ _ Htr) as Hsizes.
  assert (length traces = length predictions) as Hlen.
  { apply res_mapM_length in Htr. by rewrite length_fmap in Htr. }
  destruct (alignment_ok traces) as [HlR Hlt].
  assert (Forall (fun tr => length tr = N) traces) as Htraces.
  { unfold N. rewrite Hatoms. by apply (Forall_size_fmap _ _ _ Hsizes). }
  assert (Forall (fun tr => length tr = N) (aligned_traces self)) as Haligned.
  { rewrite Hal. by apply align_sizes. }
  assert (length (aligned_traces self) = length predictions) as Hlal.
  { rewrite Hal, length_align; [done | by rewrite HR | by rewrite Ht]. }
  assert (Forall (fun row => length row = N) (error_estimates self)) as Hrows.
  { rewrite Herr. by apply deviations_sizes. }
  assert (length (error_estimates self) = length predictions) as Hlerr.
  { by rewrite Herr, length_deviations. }
  repeat split; try done.
  - by rewrite Hatoms, length_fmap.
  - unfold N. by rewrite Hatoms.
  - unfold confidence. rewrite length_fmap. apply fmean0_length; [|done].
    intros Hnil. rewrite Hnil in Hlerr. simpl in Hlerr. lia.
Qed.

End Shapes.

(** ** [predict] on a complete input *)

Section PredictRuns.
Context {F : Type} `{Scalar F} {Pdb Enc Emb Label : Type}.
Context {E : External F Pdb Enc Label}.

Lemma predict_loop_run (self : ABodyBuilder2 F Enc Emb)
  (ms : dict (Enc -> string -> coords F * Emb)) (encoding : Enc)
  (full_seq : string) (outputs : list (coords F * Emb))
  (l : list (event F Pdb Enc)) :
  predict_loop ms encoding full_seq outputs (World self l)
  = (Ok (outputs ++ ((fun m => m.2 encoding full_seq) <$> ms)),
     World self (l ++ ((fun m => EvModel m.1 encoding full_seq) <$> ms))).
Proof.
  revert outputs l. induction ms as [|[model_file model] ms IH]; intros outputs l.
  - simpl. by rewrite !app_nil_r.
  - simpl. unfold bind at 1. unfold call_model, bind, emit, ret. simpl.
    rewrite IH. by rewrite <- !app_assoc.
Qed.

(** On an input whose numbering has chains "H" and "L", [predict] calls the
    numbering, then the encoding, then every loaded model once, in the order
    of [self.models], each with the same encoding and with the heavy sequence
    followed by the light one; its result is [Antibody.__init__] on the
    numbering and the models' outputs in that order. *)
Theorem predict_runs_every_model (self : ABodyBuilder2 F Enc Emb)
  (sequence_dict : dict string) (l : list (event F Pdb Enc)) (h s : string) :
  let numbering : numbered Label := number_sequences sequence_dict in
  let sequences :=
    (fun entry => (entry.1, str_join entry.2.*2)) <$> numbering in
  let encoding := get_encoding sequences in
  dict_get sequences "H" = Ok h ->
  dict_get sequences "L" = Ok s ->
  predict sequence_dict (World self l)
  = (Antibody_init numbering
       ((fun m => m.2 encoding (h +:+ s)) <$> models self),
     World self
       (l ++ [EvNumber sequence_dict; EvEncoding sequences]
          ++ ((fun m => EvModel m.1 encoding (h +:+ s)) <$> models self))).
Proof.
  intros numbering sequences encoding HH HL.
  unfold predict. fold numbering. fold sequences. fold encoding.
  unfold bind at 1. unfold emit at 1. simpl.
  unfold bind at 1. unfold emit at 1. simpl.
  unfold bind at 1. unfold lift at 1. rewrite HH.
  unfold bind at 1. unfold lift at 1. rewrite HL.
  unfold bind at 1. unfold get_self at 1. simpl.
  unfold bind at 1. rewrite predict_loop_run. simpl.
  unfold lift. by rewrite <- !app_assoc.
Qed.

(** A predictor with no model ([model_ids = []]) cannot predict: on a
    complete input [predict] calls the numbering and the encoding, runs no
    model, and raises [RuntimeError] from [torch.stack] in the constructor of
    [Antibody]. *)
Theorem predict_without_models (self : ABodyBuilder2 F Enc Emb)
  (sequence_dict : dict string) (l : list (event F Pdb Enc)) (h s : string) :
  let numbering : numbered Label := number_sequences sequence_dict in
  let sequences :=
    (fun entry => (entry.1, str_join entry.2.*2)) <$> numbering in
  models self = [] ->
  dict_get sequences "H" = Ok h ->
  dict_get sequences "L" = Ok s ->
  predict sequence_dict (World self l)
  = (Raise RuntimeError,
     World self (l ++ [EvNumber sequence_dict; EvEncoding sequences])).
Proof.
  intros numbering sequences Hmodels HH HL.
  unfold predict. fold numbering. fold sequences.
  unfold bind at 1. unfold emit at 1. simpl.
  unfold bind at 1. unfold emit at 1. simpl.
  unfold bind at 1. unfold lift at 1. rewrite HH.
  unfold bind at 1. unfold lift at 1. rewrite HL.
  unfold bind at 1. unfold get_self at 1. simpl.
  unfold bind at 1. rewrite predict_loop_run, Hmodels. simpl.
  unfold lift. simpl. by rewrite app_nil_r, <- !app_assoc.
Qed.

End PredictRuns.

(** ** The output methods at their edges *)

Section OutputEdges.
Context {F : Type} `{Scalar F} {Pdb Enc Emb Label : Type}.
Context {E : External F Pdb Enc Label}.


Hypothesis alignment_ok : alignment_contract find_alignment_transform.
Hypothesis argsort_ok : argsort_contract argsort.


(** On a constructed object [self.ranking.index] inverts [self.ranking]:
    member [i] has rank position [k] exactly when position [k] of the ranking
    holds [i]. *)
Theorem ranking_index_inverse ns (predictions : list (coords F * Emb))
  (self : Antibody F Emb Label) (i k : nat) :
  Antibody_init ns predictions = Ok self ->
  list_index i (ranking self) = Some k <-> ranking self !! k = Some i.
Proof.
  intros Hinit.
  pose proof (Antibody_init_well_formed alignment_ok argsort_ok _ _ _ Hinit) as Hwf.
  split; [apply list_index_Some|].
  apply list_index_lookup. by apply ranking_NoDup.
Qed.

End OutputEdges.

(** ** [ABodyBuilder2.__init__] *)

Lemma model_file_of_inj : Inj (=) (=) model_file_of.
Proof.
  intros id1 id2 Heq. unfold model_file_of in Heq.
  apply (inj (String.app "antibody_model_")) in Heq.
  by apply (inj pretty) in Heq.
Qed.

Lemma model_file_of_ids :
  model_file_of 1 = "antibody_model_1" /\ model_file_of 2 = "antibody_model_2" /\
  model_file_of 3 = "antibody_model_3" /\ model_file_of 4 = "antibody_model_4".
Proof. by vm_compute. Qed.

Lemma model_file_of_known (id : Z) :
  (1 <= id <= 4)%Z ->
  exists dim url,
    dict_get embed_dim (model_file_of id) = Ok dim /\
    dict_get model_urls (model_file_of id) = Ok url.
Proof.
  intros Hid.
  assert (id = 1 \/ id = 2 \/ id = 3 \/ id = 4)%Z as [->|[->|[->| ->]]] by lia;
    vm_compute; eauto.
Qed.

Lemma embed_dim_lookup (id : Z) :
  match dict_get embed_dim (model_file_of id) with
  | Ok _ => (1 <= id <= 4)%Z
  | Raise e => ~ (1 <= id <= 4)%Z /\ e = KeyError (model_file_of id)
  end.
Proof.
  destruct (decide (1 <= id <= 4)%Z) as [Hid|Hid].
  - destruct (model_file_of_known id Hid) as (dim & _ & Hdim & _).
    rewrite Hdim. exact Hid.
  - assert (forall n : Z, (1 <= n <= 4)%Z -> model_file_of n <> model_file_of id)
      as Hne by (intros n Hn Heq%model_file_of_inj; lia).
    pose proof (Hne 1%Z ltac:(lia)) as H1. pose proof (Hne 2%Z ltac:(lia)) as H2.
    pose proof (Hne 3%Z ltac:(lia)) as H3. pose proof (Hne 4%Z ltac:(lia)) as H4.
    destruct model_file_of_ids as (E1 & E2 & E3 & E4).
    rewrite E1 in H1. rewrite E2 in H2. rewrite E3 in H3. rewrite E4 in H4.
    clear E1 E2 E3 E4.
    generalize dependent (model_file_of id). intros model_file _ H1 H2 H3 H4.
    unfold embed_dim. cbn [dict_get].
    rewrite !bool_decide_eq_false_2 by done. done.
Qed.

Lemma dict_set_keys {V} (d : dict V) (key : string) (v : V) :
  (dict_set d key v).*1 = if decide (key ∈ d.*1) then d.*1 else d.*1 ++ [key].
Proof.
  induction d as [|[k x] d IH]; csimpl.
  - destruct (decide (key ∈ [])) as [Hin|]; [by apply elem_of_nil in Hin | done].
  - case_bool_decide as Hk; csimpl.
    + subst k. destruct (decide (key ∈ key :: d.*1)) as [|Hnin]; [done|].
      exfalso. apply Hnin. by left.
    + rewrite IH.
      destruct (decide (key ∈ d.*1)) as [Hin|Hnin];
        destruct (decide (key ∈ k :: d.*1)) as [Hin'|Hnin']; try done.
      * exfalso. apply Hnin'. by right.
      * apply elem_of_cons in Hin' as [->|]; done.
Qed.

Section LoadingFacts.
Context {F : Type} {Enc Emb Net : Type}.
Context {L : Loader F Enc Emb Net}.

(** What the [try] block leaves behind: the file was loaded, or the error
    line is the last thing in the log and the exception is the one
    [download_file] or the loading raised. *)
Lemma try_load_cases (device model_file weights_path : string) (model : Net)
  (lg : list load_event) :
  (exists url, dict_get model_urls model_file = Ok url) ->
  match try_load device model_file weights_path model lg with
  | (Ok _, lg') => exists added, lg' = lg ++ added
  | (Raise e, lg') =>
      (exists added, lg' = lg ++ added ++ [LdPrint (error_message model_file)]) /\
      ((exists h url path, download_file h url path = Some e) \/
       (exists h m path d, load_state h m path d = Raise e))
  end.
Proof.
  intros [url Hurl]. unfold try_load, fetch_weights. rewrite Hurl.
  destruct (path_exists lg weights_path).
  - destruct (load_state _ model weights_path device) as [m|e] eqn:Hload.
    + exists [LdExists weights_path; LdLoad weights_path device].
      by rewrite <- ?app_assoc.
    + split; [|right; eauto 6].
      exists [LdExists weights_path; LdLoad weights_path device].
      by rewrite <- ?app_assoc.
  - destruct (download_file _ url weights_path) as [e|] eqn:Hdown.
    + split; [|left; eauto].
      exists [LdExists weights_path; LdPrint (downloading_message model_file);
              LdDownload url weights_path].
      by rewrite <- ?app_assoc.
    + destruct (load_state _ model weights_path device) as [m|e] eqn:Hload.
      * exists [LdExists weights_path; LdPrint (downloading_message model_file);
                LdDownload url weights_path; LdLoad weights_path device].
        by rewrite <- ?app_assoc.
      * split; [|right; eauto 6].
        exists [LdExists weights_path; LdPrint (downloading_message model_file);
                LdDownload url weights_path; LdLoad weights_path device].
        by rewrite <- ?app_assoc.
Qed.

Lemma load_model_cases (device : string) (id : Z)
  (models : dict (Enc -> string -> coords F * Emb)) (lg : list load_event) :
  match load_model device id models lg with
  | (Ok models', lg') =>
      (1 <= id <= 4)%Z /\
      models'.*1 = (if decide (model_file_of id ∈ models.*1) then models.*1
                    else models.*1 ++ [model_file_of id])
  | (Raise e, lg') =>
      (~ (1 <= id <= 4)%Z /\ e = KeyError (model_file_of id) /\ lg' = lg) \/
      ((1 <= id <= 4)%Z /\
       (exists added,
           lg' = lg ++ added ++ [LdPrint (error_message (model_file_of id))]) /\
       ((exists h url path, download_file h url path = Some e) \/
        (exists h m path d, load_state h m path d = Raise e)))
  end.
Proof.
  unfold load_model. pose proof (embed_dim_lookup id) as Hdim.
  destruct (dict_get embed_dim (model_file_of id)) as [dim|e].
  - destruct (model_file_of_known id Hdim) as (_ & url & _ & Hurl).
    pose proof (try_load_cases device (model_file_of id)
                  (weights_path_of (model_file_of id))
                  (structure_module 64 dim device) lg (ex_intro _ url Hurl))
      as Htry.
    destruct (try_load _ _ _ _ lg) as [[m|e] lg'].
    + split; [done|]. apply dict_set_keys.
    + right. by destruct Htry.
  - destruct Hdim as [Hid ->]. by left.
Qed.

Lemma load_models_Ok (device : string) (ids : list Z)
  (models models' : dict (Enc -> string -> coords F * Emb))
  (lg lg' : list load_event) :
  load_models device ids models lg = (Ok models', lg') ->
  NoDup models.*1 ->
  Forall (fun id => (1 <= id <= 4)%Z) ids /\
  NoDup models'.*1 /\
  (forall k, k ∈ models'.*1 <->
             k ∈ models.*1 \/ exists id, id ∈ ids /\ k = model_file_of id) /\
  length models' <= length models + length ids.
Proof.
  revert models lg. induction ids as [|id rest IH]; intros models lg;
    cbn [load_models].
  - intros [= <- <-] Hnd. repeat split; try done; try lia.
    + by left.
    + intros [?|(id & Hin & _)]; [done | by apply elem_of_nil in Hin].
  - pose proof (load_model_cases device id models lg) as Hone.
    destruct (load_model device id models lg) as [[models1|e] lg1]; [|done].
    destruct Hone as [Hid Hkeys]. intros Hrun Hnd.
    assert (NoDup models1.*1) as Hnd1.
    { rewrite Hkeys. destruct (decide _) as [|Hnin]; [done|].
      apply NoDup_app. split; [done|]. split; [|apply NoDup_singleton].
      intros k Hk ->%list_elem_of_singleton. done. }
    destruct (IH models1 lg1 Hrun Hnd1) as (Hids & Hnd' & Hmem & Hlen).
    assert (length models1 <= S (length models)) as Hlen1.
    { rewrite <- (length_fmap fst models1), Hkeys.
      destruct (decide _); rewrite ?length_app, length_fmap; simpl; lia. }
    split; [by constructor|]. split; [done|]. split; [|simpl; lia].
    intros k. rewrite Hmem, Hkeys. split.
    + intros [Hk|(id' & Hin & ->)].
      * destruct (decide _) as [|Hnin]; [by left|].
        apply elem_of_app in Hk as [?|Hk]; [by left|].
        apply list_elem_of_singleton in Hk as ->.
        right. exists id. split; [by left | done].
      * right. exists id'. split; [by right | done].
    + intros [Hk|(id' & Hin & ->)].
      * left. destruct (decide _); [done|]. apply elem_of_app. by left.
      * apply elem_of_cons in Hin as [->|Hin].
        -- left. destruct (decide _); [done|].
           apply elem_of_app. right. by apply list_elem_of_singleton.
        -- right. by exists id'.
Qed.


(** A successful construction loaded known models only: every id is one of
    1 to 4, the device is the one [torch.cuda.is_available] chose, and
    [self.models] holds one model for each distinct id, however often the id
    was given. *)
Theorem ABodyBuilder2_init_models (model_ids : option (list Z))
  (self : ABodyBuilder2 F Enc Emb) (lg : list load_event) :
  ABodyBuilder2_init model_ids = (Ok self, lg) ->
  let ids := default [1; 2; 3; 4]%Z model_ids in
  Forall (fun id => (1 <= id <= 4)%Z) ids /\
  device self = (if cuda_is_available then "cuda" else "cpu") /\
  NoDup (models self).*1 /\
  (forall k, k ∈ (models self).*1 <-> exists id, id ∈ ids /\ k = model_file_of id) /\
  length (models self) <= length ids.
Proof.
  intros Hinit ids. unfold ABodyBuilder2_init in Hinit. fold ids in Hinit.
  destruct (load_models _ ids [] []) as [[ms|e] lg'] eqn:Hrun; [|done].
  injection Hinit as <- <-. simpl.
  destruct (load_models_Ok _ _ _ _ _ _ Hrun) as (Hids & Hnd & Hmem & Hlen);
    [constructor|].
  repeat split; try done.
  - rewrite Hmem. intros [Hin|?]; [by apply elem_of_nil in Hin | done].
  - rewrite Hmem. by right.
Qed.


End LoadingFacts.

Section Downloads.
Context {F : Type} {Enc Emb Net : Type}.
Context {L : Loader F Enc Emb Net}.

Lemma downloads_justified_snoc (lg : list load_event) (ev : load_event) :
  downloads_justified lg ->
  (forall url path, ev <> LdDownload url path) ->
  downloads_justified (lg ++ [ev]).
Proof.
  intros Hlg Hev before url path after Heq.
  destruct after as [|x after _] using rev_ind.
  - apply app_inj_tail in Heq as [_ ->]. by destruct (Hev url path).
  - rewrite app_comm_cons, app_assoc in Heq.
    apply app_inj_tail in Heq as [-> _]. by eapply Hlg.
Qed.

Lemma downloads_justified_download (earlier : list load_event)
  (model_file url : string) :
  downloads_justified earlier ->
  path_exists earlier (weights_path_of model_file) = false ->
  dict_get model_urls model_file = Ok url ->
  downloads_justified
    (((earlier ++ [LdExists (weights_path_of model_file)])
        ++ [LdPrint (downloading_message model_file)])
       ++ [LdDownload url (weights_path_of model_file)]).
Proof.
  intros Hlg Hmissing Hurl before url' path after Heq.
  destruct after as [|x after _] using rev_ind.
  - apply app_inj_tail in Heq as [<- [= <- <-]].
    exists earlier, model_file. by rewrite <- app_assoc.
  - rewrite app_comm_cons, app_assoc in Heq.
    apply app_inj_tail in Heq as [Heq _].
    assert (downloads_justified
              ((earlier ++ [LdExists (weights_path_of model_file)])
                 ++ [LdPrint (downloading_message model_file)])) as Hlg'
      by (by repeat apply downloads_justified_snoc).
    by eapply Hlg'.
Qed.

Lemma fetch_weights_justified (model_file : string) (lg : list load_event) :
  downloads_justified lg ->
  downloads_justified (fetch_weights model_file (weights_path_of model_file) lg).2.
Proof.
  intros Hlg. unfold fetch_weights.
  destruct (dict_get model_urls model_file) as [url|] eqn:Hurl;
    destruct (path_exists lg _) eqn:Hexists; cbn [snd].
  - by apply downloads_justified_snoc.
  - by apply downloads_justified_download.
  - by apply downloads_justified_snoc.
  - by repeat apply downloads_justified_snoc.
Qed.

Lemma load_model_justified (device : string) (id : Z)
  (models : dict (Enc -> string -> coords F * Emb)) (lg : list load_event) :
  downloads_justified lg ->
  downloads_justified (load_model device id models lg).2.
Proof.
  intros Hlg. unfold load_model.
  destruct (dict_get embed_dim (model_file_of id)) as [dim|]; [|done].
  unfold try_load.
  pose proof (fetch_weights_justified (model_file_of id) lg Hlg) as Hfetch.
  destruct (fetch_weights _ _ lg) as [[[]|e] lg1]; simpl in *.
  - destruct (load_state lg1 _ _ device); simpl;
      by repeat apply downloads_justified_snoc.
  - by apply downloads_justified_snoc.
Qed.

Lemma load_models_justified (device : string) (ids : list Z)
  (models : dict (Enc -> string -> coords F * Emb)) (lg : list load_event) :
  downloads_justified lg ->
  downloads_justified (load_models device ids models lg).2.
Proof.
  revert models lg. induction ids as [|id rest IH]; intros models lg Hlg;
    cbn [load_models]; [done|].
  pose proof (load_model_justified device id models lg Hlg) as Hone.
  destruct (load_model device id models lg) as [[models1|e] lg1]; simpl in *;
    [by apply IH | done].
Qed.

(** The constructor never downloads weights that are on disk: every call of
    [download_file] comes right after a check that found the weights file of
    that model missing and the message that announces the download, and it
    is given the URL of that model. *)
Theorem ABodyBuilder2_init_downloads (model_ids : option (list Z))
  (r : res (ABodyBuilder2 F Enc Emb)) (lg : list load_event)
  (before after : list load_event) (url path : string) :
  ABodyBuilder2_init model_ids = (r, lg) ->
  lg = before ++ LdDownload url path :: after ->
  exists earlier model_file,
    before = earlier ++ [LdExists path; LdPrint (downloading_message model_file)] /\
    path_exists earlier path = false /\
    path = weights_path_of model_file /\
    dict_get model_urls model_file = Ok url.
Proof.
  unfold ABodyBuilder2_init. intros Hinit Hsplit.
  assert (downloads_justified lg) as Hlg.
  { pose proof (load_models_justified
                  (if cuda_is_available then "cuda" else "cpu")
                  (default [1; 2; 3; 4]%Z model_ids) [] []) as Hrun.
    destruct (load_models _ _ [] []) as [[ms|e] lg']; simpl in Hrun;
      injection Hinit as _ <-; apply Hrun;
      intros b u p a Hnil; by destruct b. }
  destruct (Hlg before url path after Hsplit)
    as (earlier & model_file & -> & Hmissing & -> & Hurl).
  by exists earlier, model_file.
Qed.

End Downloads.

(** ** The further properties on concrete inputs *)

Lemma constructed_shapes_witness :
  exists self,
    Antibody_init (E:=demo_failing) demo_numbering three_members = Ok self /\
    length (atoms self) = 3 /\
    Forall (fun row => length row = 1) (error_estimates self) /\
    length (confidence self) = 1.
Proof.
  eexists. split; [vm_compute; reflexivity|].
  match goal with
  | |- length (atoms ?s) = _ /\ _ =>
      assert (Antibody_init (E:=demo_failing) demo_numbering three_members = Ok s)
        as Hinit by (vm_compute; reflexivity)
  end.
  pose proof (constructed_shapes (E:=demo_failing) identity_alignment_contract
                demo_numbering three_members _ Hinit) as Hshapes.
  cbv zeta in Hshapes.
  destruct Hshapes as (Hatoms & _ & _ & _ & _ & Hrows & Hconf).
  split; [exact Hatoms|]. split; [exact Hrows | exact Hconf].
Defined.

Lemma predict_runs_every_model_witness :
  predict (E:=demo_failing) [("H", "EVQ"); ("L", "DIQ")] (World demo_builder [])
  = (Antibody_init (E:=demo_failing) demo_numbering [([residue_at 1 1], tt)],
     World demo_builder
       [EvNumber [("H", "EVQ"); ("L", "DIQ")];
        EvEncoding [("H", "EVQ"); ("L", "DIQ")];
        EvModel "antibody_model_1" [("H", "EVQ"); ("L", "DIQ")] "EVQDIQ"]).
Proof.
  apply (predict_runs_every_model (E:=demo_failing) demo_builder
           [("H", "EVQ"); ("L", "DIQ")] [] "EVQ" "DIQ");
    vm_compute; reflexivity.
Defined.

Lemma predict_without_models_witness :
  predict (E:=demo_failing) [("H", "EVQ"); ("L", "DIQ")]
    (World no_models_builder [])
  = (Raise RuntimeError,
     World no_models_builder
       [EvNumber [("H", "EVQ"); ("L", "DIQ")];
        EvEncoding [("H", "EVQ"); ("L", "DIQ")]]).
Proof.
  apply (predict_without_models (E:=demo_failing) no_models_builder
           [("H", "EVQ"); ("L", "DIQ")] [] "EVQ" "DIQ");
    vm_compute; reflexivity.
Defined.



Lemma ranking_index_inverse_witness :
  exists self,
    Antibody_init (E:=demo_failing) demo_numbering three_members = Ok self /\
    ranking self !! 2 = Some 0 /\
    list_index 0 (ranking self) = Some 2.
Proof.
  eexists. split; [vm_compute; reflexivity|].
  split; [vm_compute; reflexivity|].
  match goal with
  | |- list_index _ (ranking ?s) = _ =>
      assert (Antibody_init (E:=demo_failing) demo_numbering three_members = Ok s)
        as Hinit by (vm_compute; reflexivity)
  end.
  apply (ranking_index_inverse (E:=demo_failing)
           identity_alignment_contract argsort_ties_first_contract
           demo_numbering three_members _ 0 2 Hinit).
  vm_compute. reflexivity.
Defined.

Lemma ABodyBuilder2_init_models_witness :
  exists self lg,
    ABodyBuilder2_init (L:=demo_loader) (Some [2; 2; 1]%Z) = (Ok self, lg) /\
    (models self).*1 = ["antibody_model_2"; "antibody_model_1"] /\
    NoDup (models self).*1 /\
    length (models self) <= 3.
Proof.
  eexists _, _. split; [vm_compute; reflexivity|].
  split; [vm_compute; reflexivity|].
  match goal with
  | |- NoDup (models ?s).*1 /\ _ =>
      assert (exists lg, ABodyBuilder2_init (L:=demo_loader) (Some [2; 2; 1]%Z)
                         = (Ok s, lg)) as [lg Hinit]
        by (eexists; vm_compute; reflexivity);
      pose proof (ABodyBuilder2_init_models (L:=demo_loader)
                    (Some [2; 2; 1]%Z) s lg Hinit) as Hmodels
  end.
  cbv zeta in Hmodels.
  destruct Hmodels as (_ & _ & Hnodup & _ & Hlen).
  split; [exact Hnodup | exact Hlen].
Defined.


Lemma ABodyBuilder2_init_downloads_witness :
  exists self lg before after,
    ABodyBuilder2_init (L:=demo_loader) None = (Ok self, lg) /\
    lg = before
           ++ LdDownload
                "https://zenodo.org/record/7258553/files/antibody_model_3?download=1"
                "/opt/ImmuneBuilder/trained_model/antibody_model_3"
           :: after /\
    exists earlier model_file,
      before = earlier
                 ++ [LdExists "/opt/ImmuneBuilder/trained_model/antibody_model_3";
                     LdPrint (downloading_message model_file)] /\
      path_exists (Loader:=demo_loader) earlier
        "/opt/ImmuneBuilder/trained_model/antibody_model_3" = false.
Proof.
  eexists _, _,
    [LdExists "/opt/ImmuneBuilder/trained_model/antibody_model_1";
     LdLoad "/opt/ImmuneBuilder/trained_model/antibody_model_1" "cpu";
     LdExists "/opt/ImmuneBuilder/trained_model/antibody_model_2";
     LdLoad "/opt/ImmuneBuilder/trained_model/antibody_model_2" "cpu";
     LdExists "/opt/ImmuneBuilder/trained_model/antibody_model_3";
     LdPrint "Downloading weights for antibody_model_3..."], _.
  split; [vm_compute; reflexivity|]. split; [reflexivity|].
  match goal with
  | |- exists earlier model_file, ?b = _ /\ _ =>
      assert (exists r after,
                 ABodyBuilder2_init (L:=demo_loader) None
                 = (r, b ++ LdDownload
                         "https://zenodo.org/record/7258553/files/antibody_model_3?download=1"
                         "/opt/ImmuneBuilder/trained_model/antibody_model_3"
                       :: after)) as (r & after & Hinit)
        by (eexists _, _; vm_compute; reflexivity);
      destruct (ABodyBuilder2_init_downloads (L:=demo_loader) None _ _ b _ _ _
                  Hinit eq_refl)
        as (earlier & model_file & Hbefore & Hmissing & _)
  end.
  exists earlier, model_file. split; [exact Hbefore | exact Hmissing].
Defined.
